(** * MicMon: the "Listen to this device" read/modify/write protocol

    A shallow embedding of [MicMon.py]: endpoint enumeration, name
    resolution, the property-store accessor, the listen-state codec and
    [apply_listen_settings].  The Windows Core Audio objects the program
    talks to (through comtypes and pycaw) are modelled by a record of call
    results; the program itself is written in a state-and-exception monad
    over a world that holds the property values, the log of OS calls and
    the lines printed so far. *)

From Stdlib Require Import String Ascii List ZArith Bool Lia DecimalString.
Import ListNotations.

Local Open Scope string_scope.
Local Open Scope list_scope.

(* ================================================================= *)
(** ** Python strings *)

(** [pat in s] on Python strings. *)
Fixpoint contains (pat s : string) : bool :=
  String.prefix pat s ||
  match s with
  | EmptyString => false
  | String _ s' => contains pat s'
  end.

Definition squote : ascii := ascii_of_nat 39.
Definition dquote : ascii := ascii_of_nat 34.
Definition backslash : ascii := ascii_of_nat 92.

Fixpoint has_char (c : ascii) (s : string) : bool :=
  match s with
  | EmptyString => false
  | String c' s' => Ascii.eqb c c' || has_char c s'
  end.

Definition hex_digit (n : nat) : ascii :=
  nth n (list_ascii_of_string "0123456789abcdef") "0"%char.

(** The body of [repr(s)] between the quotes, for the quote character [q].
    Strings are sequences of bytes here.  The function is Python's on ASCII
    text; bytes above 127 are left as they are, which is Python's rendering
    of the printable characters they encode, whereas Python escapes the
    non-printable ones among them (U+00A0, U+3000, ...) as [\x..] or
    [\u....]. *)
Fixpoint repr_chars (q : ascii) (s : string) : string :=
  match s with
  | EmptyString => EmptyString
  | String c s' =>
      let n := nat_of_ascii c in
      let rest := repr_chars q s' in
      if Ascii.eqb c q || Ascii.eqb c backslash then String backslash (String c rest)
      else if Nat.eqb n 9 then String backslash (String "t" rest)
      else if Nat.eqb n 10 then String backslash (String "n" rest)
      else if Nat.eqb n 13 then String backslash (String "r" rest)
      else if Nat.ltb n 32 || Nat.eqb n 127 then
        String backslash
          (String "x" (String (hex_digit (n / 16)) (String (hex_digit (n mod 16)) rest)))
      else String c rest
  end.

(** [repr(s)], the [{name!r}] of the f-strings: single quotes unless the
    text has a single quote and no double quote. *)
Definition py_repr (s : string) : string :=
  let q := if has_char squote s && negb (has_char dquote s) then dquote else squote in
  String q (repr_chars q s ++ String q EmptyString)%string.

(** [x or d] for an optional string: [None] and the empty string are falsy. *)
Definition py_or (x : option string) (d : string) : string :=
  match x with
  | Some (String c s) => String c s
  | _ => d
  end.

(* ================================================================= *)
(** ** Exceptions and OS call results *)

(** The exceptions that reach [main]: the two the program raises itself and
    the [COMError] of a failed COM call. *)
Inductive exn : Type :=
| ValueError (msg : string)
| RuntimeError (msg : string)
| COMError (hresult : Z) (text : string).

(** [repr(n)] of an integer. *)
Definition py_repr_int (n : Z) : string := NilZero.string_of_int (Z.to_int n).

(** [str(exc)] as [main] prints it: the message of a [ValueError] or a
    [RuntimeError]; for a [COMError] its args tuple [(hresult, text,
    details)], where the failed calls of this model attached no error
    information, so that the details are [(None, None, None, 0, None)]. *)
Definition exn_str (e : exn) : string :=
  match e with
  | ValueError msg => msg
  | RuntimeError msg => msg
  | COMError hresult text =>
      ("(" ++ py_repr_int hresult ++ ", " ++ py_repr text ++
       ", (None, None, None, 0, None))")%string
  end.

(** What a COM call gives back: a value, or a failure that comtypes turns
    into [COMError(hresult, text, details)]; the failures modelled carry the
    message text of the result code and no error information. *)
Inductive com (A : Type) : Type :=
| ComOk (a : A)
| ComFail (hresult : Z) (text : string).
Arguments ComOk {A} a.
Arguments ComFail {A} hresult text.

(* ================================================================= *)
(** ** Core Audio data *)

Inductive EDataFlow : Type := eRender | eCapture.

Inductive VARTYPE : Type := VT_EMPTY | VT_BOOL | VT_LPWSTR.

(** A [PROPVARIANT]: its type tag and the two members of the union the
    program reads or writes, kept as separate fields. *)
Record PROPVARIANT : Type := {
  vt : VARTYPE;
  boolVal : Z;
  pwszVal : option string
}.

(** [PROPVARIANT(vt)]: a zeroed value with the tag set. *)
Definition PROPVARIANT_new (t : VARTYPE) : PROPVARIANT :=
  {| vt := t; boolVal := 0; pwszVal := None |}.

Record PROPERTYKEY : Type := {
  fmtid : string;
  pid : Z
}.

Definition PROPERTYKEY_eqb (k1 k2 : PROPERTYKEY) : bool :=
  String.eqb (fmtid k1) (fmtid k2) && Z.eqb (pid k1) (pid k2).

(** pycaw's [AudioDevice], by the two attributes the program reads and its
    string conversion ["AudioDevice: %s" % FriendlyName]. *)
Module AudioDevice.
Record t : Type := {
  id : string;
  FriendlyName : option string
}.
Definition str (d : t) : string :=
  ("AudioDevice: " ++
   match FriendlyName d with Some n => n | None => "None" end)%string.
End AudioDevice.

(** The items of an [IMMDeviceCollection]; [Item(i)] may be [None].  The
    collection is taken as data: [GetCount], [Item(i)] and pycaw's
    [CreateDevice], which reads the identifier and the friendly name of each
    endpoint, are not logged as calls and are taken to succeed. *)
Definition IMMDeviceCollection : Type := list (option AudioDevice.t).

(** An opened property store, named by the device it belongs to. *)
Definition IPropertyStore : Type := string.

Record DeviceInfo : Type := {
  id : string;
  friendly_name : option string;
  direction : string
}.

(* ================================================================= *)
(** ** The operating system and the world *)

(** How the OS answers each call.  [false] stands for a [None] result of
    [CoCreateInstance] and [GetDevice]. *)
Record OS : Type := {
  CoCreateInstance_result : com bool;
  EnumAudioEndpoints_result : EDataFlow -> com (option IMMDeviceCollection);
  GetDeviceEnumerator_result : com unit;
  GetDevice_result : string -> com bool;
  OpenPropertyStore_result : string -> com unit;
  SetValue_result : IPropertyStore -> PROPERTYKEY -> PROPVARIANT -> com unit;
  Commit_result : IPropertyStore -> com unit
}.

Inductive Event : Type :=
| CallCoCreateInstance
| CallEnumAudioEndpoints (flow : EDataFlow)
| CallGetDeviceEnumerator
| CallGetDevice (guid : string)
| CallOpenPropertyStore (guid : string)
| CallGetValue (store : IPropertyStore) (key : PROPERTYKEY)
| CallSetValue (store : IPropertyStore) (key : PROPERTYKEY) (value : PROPVARIANT)
| CallCommit (store : IPropertyStore).

(** [props] is what [GetValue] answers for each store and key: a value
    (the stored one, or an empty [VT_EMPTY] value where the store answers so
    for a key it does not hold), or a failure of the read.  A successful
    [SetValue] replaces the entry.  [trace] lists the OS calls the program
    makes, oldest first; [stdout] the printed lines. *)
Record World : Type := {
  os : OS;
  props : IPropertyStore -> PROPERTYKEY -> com PROPVARIANT;
  trace : list Event;
  stdout : list string
}.

Definition log_events (evs : list Event) (w : World) : World :=
  {| os := os w; props := props w; trace := trace w ++ evs; stdout := stdout w |}.

Definition log_event (ev : Event) (w : World) : World := log_events [ev] w.

Definition write_prop (s : IPropertyStore) (k : PROPERTYKEY) (v : PROPVARIANT)
    (w : World) : World :=
  {| os := os w;
     props := fun s' k' =>
       if String.eqb s' s && PROPERTYKEY_eqb k' k then ComOk v else props w s' k';
     trace := trace w;
     stdout := stdout w |}.

Definition write_line (line : string) (w : World) : World :=
  {| os := os w; props := props w; trace := trace w; stdout := stdout w ++ [line] |}.

(* ================================================================= *)
(** ** The monad of the program: state and exceptions *)

Inductive Outcome (A : Type) : Type :=
| Return (a : A)
| Raise (e : exn).
Arguments Return {A} a.
Arguments Raise {A} e.

Definition M (A : Type) : Type := World -> Outcome A * World.

Definition ret {A} (a : A) : M A := fun w => (Return a, w).

Definition raise {A} (e : exn) : M A := fun w => (Raise e, w).

Definition bind {A B} (c : M A) (k : A -> M B) : M B :=
  fun w =>
    match c w with
    | (Return a, w') => k a w'
    | (Raise e, w') => (Raise e, w')
    end.

(** [try: c except Exception as e: h e]. *)
Definition try_except {A} (c : M A) (h : exn -> M A) : M A :=
  fun w =>
    match c w with
    | (Return a, w') => (Return a, w')
    | (Raise e, w') => h e w'
    end.

Notation "x <- c ;; k" := (bind c (fun x => k))
  (at level 61, c at next level, right associativity).
Notation "c ;; k" := (bind c (fun _ => k))
  (at level 61, right associativity).

Definition run {A} (c : M A) (w : World) : Outcome A * World := c w.
Definition result {A} (c : M A) (w : World) : Outcome A := fst (c w).
Definition after {A} (c : M A) (w : World) : World := snd (c w).

(** A COM call: logged, then answered by the OS. *)
Definition com_call {A} (ev : Event) (answer : World -> com A) : M A :=
  fun w =>
    let w' := log_event ev w in
    match answer w with
    | ComOk a => (Return a, w')
    | ComFail h t => (Raise (COMError h t), w')
    end.

Definition print (line : string) : M unit :=
  fun w => (Return tt, write_line line w).

(** *** The OS calls the program makes *)

Definition CoCreateInstance : M bool :=
  com_call CallCoCreateInstance (fun w => CoCreateInstance_result (os w)).

Definition EnumAudioEndpoints (flow : EDataFlow) : M (option IMMDeviceCollection) :=
  com_call (CallEnumAudioEndpoints flow) (fun w => EnumAudioEndpoints_result (os w) flow).

Definition GetDeviceEnumerator : M unit :=
  com_call CallGetDeviceEnumerator (fun w => GetDeviceEnumerator_result (os w)).

Definition GetDevice (guid : string) : M bool :=
  com_call (CallGetDevice guid) (fun w => GetDevice_result (os w) guid).

Definition OpenPropertyStore (guid : string) : M IPropertyStore :=
  com_call (CallOpenPropertyStore guid) (fun w => OpenPropertyStore_result (os w) guid) ;;
  ret guid.

Definition GetValue (store : IPropertyStore) (key : PROPERTYKEY) : M PROPVARIANT :=
  com_call (CallGetValue store key) (fun w => props w store key).

Definition SetValue (store : IPropertyStore) (key : PROPERTYKEY) (value : PROPVARIANT)
    : M unit :=
  fun w =>
    let w' := log_event (CallSetValue store key value) w in
    match SetValue_result (os w) store key value with
    | ComOk _ => (Return tt, write_prop store key value w')
    | ComFail h t => (Raise (COMError h t), w')
    end.

Definition Commit (store : IPropertyStore) : M unit :=
  com_call (CallCommit store) (fun w => Commit_result (os w) store).

(* ================================================================= *)
(** ** Constants *)

Definition LISTEN_SETTING_GUID : string := "{24DBB0FC-9311-4B3D-9CF0-18FF155639D4}".
Definition CHECKBOX_PID : Z := 1.
Definition LISTENING_DEVICE_PID : Z := 0.

(* ================================================================= *)
(** ** Device enumeration *)

(** The body of the [for i in range(count)] loop of [get_active_devices],
    over the items of the collection. *)
Fixpoint collect_devices (direction : string) (items : IMMDeviceCollection)
    : list DeviceInfo :=
  match items with
  | [] => []
  | None :: rest => collect_devices direction rest
  | Some device :: rest =>
      if contains ": None" (AudioDevice.str device)
      then collect_devices direction rest
      else {| id := AudioDevice.id device;
              friendly_name := AudioDevice.FriendlyName device;
              direction := direction |} :: collect_devices direction rest
  end.

Definition get_active_devices (direction : string) : M (list DeviceInfo) :=
  if negb (String.eqb direction "input" || String.eqb direction "output") then
    raise (ValueError "direction must be 'input' or 'output'")
  else
    let e_dataflow := if String.eqb direction "output" then eRender else eCapture in
    device_enumerator <- CoCreateInstance ;;
    if negb device_enumerator then
      raise (RuntimeError "Couldn't create IMMDeviceEnumerator")
    else
      collection <- EnumAudioEndpoints e_dataflow ;;
      match collection with
      | None => raise (RuntimeError "Couldn't enumerate audio endpoints")
      | Some items => ret (collect_devices direction items)
      end.

(** The [for dev in ...] loop of [find_device_guid_by_name]; [None] when the
    loop ends without returning. *)
Fixpoint first_named (name : string) (devs : list DeviceInfo) : option string :=
  match devs with
  | [] => None
  | dev :: rest =>
      match friendly_name dev with
      | Some n => if String.eqb n name then Some (id dev) else first_named name rest
      | None => first_named name rest
      end
  end.

Definition find_device_guid_by_name (name : string) : M string :=
  inputs <- get_active_devices "input" ;;
  outputs <- get_active_devices "output" ;;
  match first_named name (inputs ++ outputs) with
  | Some guid => ret guid
  | None => raise (ValueError ("Audio device not found: " ++ py_repr name)%string)
  end.

(* ================================================================= *)
(** ** Core property store logic *)

Definition open_property_store_for_device (device_name : string) : M IPropertyStore :=
  device_guid <- find_device_guid_by_name device_name ;;
  GetDeviceEnumerator ;;
  device <- GetDevice device_guid ;;
  if negb device then
    raise (RuntimeError ("Failed to open device for GUID " ++ device_guid)%string)
  else OpenPropertyStore device_guid.

Definition _listen_checkbox_property_key : PROPERTYKEY :=
  {| fmtid := LISTEN_SETTING_GUID; pid := CHECKBOX_PID |}.

Definition _listen_playback_property_key : PROPERTYKEY :=
  {| fmtid := LISTEN_SETTING_GUID; pid := LISTENING_DEVICE_PID |}.

(** [bool(n)] for an integer. *)
Definition py_bool (n : Z) : bool := negb (Z.eqb n 0).

Definition get_listen_enabled (property_store : IPropertyStore) : M (option bool) :=
  try_except
    (current <- GetValue property_store _listen_checkbox_property_key ;;
     ret (Some (py_bool (boolVal current))))
    (fun _ => ret None).

(** The value [set_listen_enabled] builds: a [VT_BOOL] with [boolVal] set
    from the Python bool. *)
Definition enabled_variant (enabled : bool) : PROPVARIANT :=
  {| vt := VT_BOOL; boolVal := if enabled then 1 else 0; pwszVal := None |}.

Definition set_listen_enabled (property_store : IPropertyStore) (enabled : bool) : M unit :=
  let new_value := enabled_variant enabled in
  SetValue property_store _listen_checkbox_property_key new_value.

(** The value [set_listen_playback_device] builds for a resolved GUID. *)
Definition playback_variant (guid : string) : PROPVARIANT :=
  {| vt := VT_LPWSTR; boolVal := 0; pwszVal := Some guid |}.

Definition set_listen_playback_device (property_store : IPropertyStore)
    (playback_device_name : option string) : M unit :=
  new_value <-
    match playback_device_name with
    | Some name =>
        listening_device_guid <- find_device_guid_by_name name ;;
        ret (playback_variant listening_device_guid)
    | None => ret (PROPVARIANT_new VT_EMPTY)
    end ;;
  SetValue property_store _listen_playback_property_key new_value.

(** The target of the enabled flag, lines 209-212. *)
Definition enabled_target (enabled current : option bool) : bool :=
  match enabled with
  | None => match current with Some c => negb c | None => true end
  | Some e => e
  end.

Definition apply_listen_settings (microphone_name : string) (enabled : option bool)
    (playback_device_name : option string) (verbose : bool) : M unit :=
  store <- open_property_store_for_device microphone_name ;;
  current <- get_listen_enabled store ;;
  let enabled_to_set := enabled_target enabled current in
  set_listen_enabled store enabled_to_set ;;
  set_listen_playback_device store playback_device_name ;;
  try_except (Commit store) (fun _ => ret tt) ;;
  if verbose then
    let state := if enabled_to_set then "ON" else "OFF" in
    let target := py_or playback_device_name "Default playback device" in
    print ("[micmon] Listen to this device: " ++ state)%string ;;
    print ("[micmon] Playback through this device: " ++ target)%string
  else ret tt.

(** The final [try] block of [main]: the exit code for the three ways
    [apply_listen_settings] can end. *)
Definition main_apply (on off : bool) (microphone : string)
    (playback_device : option string) (verbose : bool) : M Z :=
  fun w =>
    let enabled := if on then Some true else if off then Some false else None in
    match apply_listen_settings microphone enabled playback_device verbose w with
    | (Return _, w') => (Return 0%Z, w')
    | (Raise (ValueError msg), w') =>
        (Return 1%Z,
         if verbose then write_line ("[micmon] error: " ++ msg)%string w' else w')
    | (Raise e, w') =>
        (Return 2%Z,
         if verbose then write_line ("[micmon] unexpected error: " ++ exn_str e)%string w'
         else w')
    end.

(* ================================================================= *)
(** ** Validation, listing and the command line *)

Definition ascii_upper (c : ascii) : ascii :=
  let n := nat_of_ascii c in
  if Nat.leb 97 n && Nat.leb n 122 then ascii_of_nat (n - 32) else c.

Definition ascii_lower (c : ascii) : ascii :=
  let n := nat_of_ascii c in
  if Nat.leb 65 n && Nat.leb n 90 then ascii_of_nat (n + 32) else c.

Fixpoint lower (s : string) : string :=
  match s with
  | EmptyString => EmptyString
  | String c s' => String (ascii_lower c) (lower s')
  end.

(** [s.capitalize()] on ASCII text: first letter upper case, the rest
    lower case. *)
Definition capitalize (s : string) : string :=
  match s with
  | EmptyString => EmptyString
  | String c s' => String (ascii_upper c) (lower s')
  end.

(** [name in names] for the set of friendly names of [devs]. *)
Definition name_in (name : string) (devs : list DeviceInfo) : bool :=
  existsb
    (fun d => match friendly_name d with Some n => String.eqb n name | None => false end)
    devs.

Definition validate_device_name (name : string) (direction : string) : M unit :=
  devs <- get_active_devices direction ;;
  if negb (name_in name devs) then
    raise (ValueError (capitalize direction ++ " device not found: " ++ py_repr name ++
                       ". Run: python micmon.py --list-devices")%string)
  else ret tt.

(** [f"{x}"] for a friendly name, which Python prints as [None] when it is
    missing. *)
Definition format_name (x : option string) : string :=
  match x with
  | Some n => n
  | None => "None"
  end.

(** The [for dev in ...: print(f"  - {dev.friendly_name}")] loops of
    [print_devices]. *)
Fixpoint print_each (devs : list DeviceInfo) : M unit :=
  match devs with
  | [] => ret tt
  | dev :: rest =>
      print ("  - " ++ format_name (friendly_name dev))%string ;;
      print_each rest
  end.

Definition newline : ascii := ascii_of_nat 10.

Definition print_devices : M unit :=
  inputs <- get_active_devices "input" ;;
  outputs <- get_active_devices "output" ;;
  print "Input devices (recording):" ;;
  (match inputs with [] => print "  (none)" | _ => ret tt end) ;;
  print_each inputs ;;
  print (String newline "Output devices (playback):") ;;
  (match outputs with [] => print "  (none)" | _ => ret tt end) ;;
  print_each outputs.

(** The parsed command line, by the attributes [main] reads; [--config],
    the path of the config file, is left to the loading of [cfg]. *)
Module Args.
Record t : Type := {
  microphone : option string;
  playback_device : option string;
  default_playback : bool;
  on : bool;
  off : bool;
  toggle : bool;
  list_devices : bool;
  init_config : bool;
  show_config : bool;
  set_microphone : option string;
  set_playback : option string;
  set_default_playback : bool;
  quiet : bool
}.
End Args.

(** A loaded config, by what [cfg.get(key)] answers; its values are strings
    or null, as [write_config_template] and the [--set-...] commands write
    them. *)
Definition Config : Type := string -> option string.

(** Truth value of an optional string: [None] and the empty string are
    falsy. *)
Definition py_truthy (x : option string) : bool :=
  match x with
  | Some (String _ _) => true
  | _ => false
  end.

(** [main] from the device listing on (lines 376-426): what runs when none
    of the config commands is given. *)
Definition main_listing_and_toggle (args : Args.t) (cfg : Config) : M Z :=
  let verbose := negb (Args.quiet args) in
  if Args.list_devices args then
    try_except
      (print_devices ;; ret 0%Z)
      (fun exc =>
         (if verbose then
            print ("[micmon] error listing devices: " ++ exn_str exc)%string
          else ret tt) ;;
         ret 1%Z)
  else if negb (Args.on args || Args.off args || Args.toggle args) then
    (if verbose then
       print ("[micmon] error: one of --on/--off/--toggle is required " ++
              "(or use a config command like --set-microphone).")%string
     else ret tt) ;;
    ret 1%Z
  else
    let microphone :=
      if py_truthy (Args.microphone args) then Args.microphone args
      else cfg "microphone" in
    match microphone with
    | Some (String c s) =>
        let playback_device :=
          if Args.default_playback args then None
          else match Args.playback_device args with
               | Some p => Some p
               | None => cfg "playback_device"
               end in
        main_apply (Args.on args) (Args.off args) (String c s) playback_device verbose
    | _ =>
        (if verbose then
           print ("[micmon] error: microphone not provided. Use --microphone " ++
                  "or set it via --set-microphone / config.")%string
         else ret tt) ;;
        ret 1%Z
    end.



(* ================================================================= *)
(** ** A concrete machine *)

Module Demo.

Definition mic : AudioDevice.t :=
  {| AudioDevice.id := "{0.0.1.00000000}.{mic}";
     AudioDevice.FriendlyName := Some "Microphone (USB Audio)" |}.

Definition ghost : AudioDevice.t :=
  {| AudioDevice.id := "{0.0.1.00000000}.{ghost}";
     AudioDevice.FriendlyName := None |}.

Definition speakers : AudioDevice.t :=
  {| AudioDevice.id := "{0.0.0.00000000}.{spk}";
     AudioDevice.FriendlyName := Some "Speakers (Realtek)" |}.

(** A headset that shows up under one name as a recording and as a
    playback endpoint. *)
Definition headset_mic : AudioDevice.t :=
  {| AudioDevice.id := "{0.0.1.00000000}.{hs-in}";
     AudioDevice.FriendlyName := Some "Headset (Bluetooth)" |}.

Definition headset : AudioDevice.t :=
  {| AudioDevice.id := "{0.0.0.00000000}.{hs-out}";
     AudioDevice.FriendlyName := Some "Headset (Bluetooth)" |}.

Definition E_ACCESSDENIED : Z := (-2147024891)%Z.

(** Every call succeeds. *)
Definition healthy : OS :=
  {| CoCreateInstance_result := ComOk true;
     EnumAudioEndpoints_result := fun flow =>
       match flow with
       | eCapture => ComOk (Some [Some mic; None; Some ghost; Some headset_mic])
       | eRender => ComOk (Some [Some speakers; Some headset])
       end;
     GetDeviceEnumerator_result := ComOk tt;
     GetDevice_result := fun _ => ComOk true;
     OpenPropertyStore_result := fun _ => ComOk tt;
     SetValue_result := fun _ _ _ => ComOk tt;
     Commit_result := fun _ => ComOk tt |}.

Definition with_SetValue (f : IPropertyStore -> PROPERTYKEY -> PROPVARIANT -> com unit)
    (o : OS) : OS :=
  {| CoCreateInstance_result := CoCreateInstance_result o;
     EnumAudioEndpoints_result := EnumAudioEndpoints_result o;
     GetDeviceEnumerator_result := GetDeviceEnumerator_result o;
     GetDevice_result := GetDevice_result o;
     OpenPropertyStore_result := OpenPropertyStore_result o;
     SetValue_result := f;
     Commit_result := Commit_result o |}.

Definition with_Commit (f : IPropertyStore -> com unit) (o : OS) : OS :=
  {| CoCreateInstance_result := CoCreateInstance_result o;
     EnumAudioEndpoints_result := EnumAudioEndpoints_result o;
     GetDeviceEnumerator_result := GetDeviceEnumerator_result o;
     GetDevice_result := GetDevice_result o;
     OpenPropertyStore_result := OpenPropertyStore_result o;
     SetValue_result := SetValue_result o;
     Commit_result := f |}.

Definition denied : com unit := ComFail E_ACCESSDENIED "Access is denied.".

(** The OS refuses to write the route target, or the enabled flag. *)
Definition route_write_denied : OS :=
  with_SetValue
    (fun _ k _ => if PROPERTYKEY_eqb k _listen_playback_property_key then denied else ComOk tt)
    healthy.

Definition flag_write_denied : OS :=
  with_SetValue
    (fun _ k _ => if PROPERTYKEY_eqb k _listen_checkbox_property_key then denied else ComOk tt)
    healthy.

(** Every [Commit] fails. *)
Definition commit_fails : OS :=
  with_Commit (fun _ => ComFail (-2147467259)%Z "Unspecified error") healthy.

(** The microphone listens (off) through the speakers. *)
Definition configured (s : IPropertyStore) (k : PROPERTYKEY) : com PROPVARIANT :=
  if String.eqb s (AudioDevice.id mic) then
    if PROPERTYKEY_eqb k _listen_checkbox_property_key then ComOk (enabled_variant false)
    else if PROPERTYKEY_eqb k _listen_playback_property_key then
      ComOk (playback_variant (AudioDevice.id speakers))
    else ComFail (-2147023728)%Z "Element not found."
  else ComFail (-2147023728)%Z "Element not found.".

(** No property of any device can be read. *)
Definition untouched (s : IPropertyStore) (k : PROPERTYKEY) : com PROPVARIANT :=
  ComFail (-2147023728)%Z "Element not found.".

Definition boot (o : OS) (p : IPropertyStore -> PROPERTYKEY -> com PROPVARIANT) : World :=
  {| os := o; props := p; trace := []; stdout := [] |}.

End Demo.

(* ================================================================= *)
(** ** Vocabulary for the statements *)

Definition e_dataflow_of (direction : string) : EDataFlow :=
  if String.eqb direction "output" then eRender else eCapture.

(** The OS answers an enumeration of [direction] with the items that
    [get_active_devices] turns into [devs]. *)
Definition enumerates (o : OS) (direction : string) (devs : list DeviceInfo) : Prop :=
  CoCreateInstance_result o = ComOk true /\
  exists items,
    EnumAudioEndpoints_result o (e_dataflow_of direction) = ComOk (Some items) /\
    devs = collect_devices direction items.

(** The OS lets the store of [guid] be opened. *)
Definition opens (o : OS) (guid : string) : Prop :=
  GetDeviceEnumerator_result o = ComOk tt /\
  GetDevice_result o guid = ComOk true /\
  OpenPropertyStore_result o guid = ComOk tt.

(** What [get_listen_enabled] makes of the answer of [GetValue]. *)
Definition decoded (answer : com PROPVARIANT) : option bool :=
  match answer with
  | ComOk v => Some (py_bool (boolVal v))
  | ComFail _ _ => None
  end.

(** The calls of one name resolution, and of opening a store after it. *)
Definition resolve_calls : list Event :=
  [CallCoCreateInstance; CallEnumAudioEndpoints eCapture;
   CallCoCreateInstance; CallEnumAudioEndpoints eRender].

Definition open_calls (guid : string) : list Event :=
  resolve_calls ++ [CallGetDeviceEnumerator; CallGetDevice guid; CallOpenPropertyStore guid].

Definition not_found (name : string) : exn :=
  ValueError ("Audio device not found: " ++ py_repr name)%string.

(** The lines [apply_listen_settings] prints when [verbose]. *)
Definition report_lines (enabled_to_set : bool) (playback_device_name : option string)
    : list string :=
  [("[micmon] Listen to this device: " ++ (if enabled_to_set then "ON" else "OFF"))%string;
   ("[micmon] Playback through this device: " ++
    py_or playback_device_name "Default playback device")%string].

Definition print_lines (lines : list string) (w : World) : World :=
  {| os := os w; props := props w; trace := trace w; stdout := stdout w ++ lines |}.

(** [v] is the value [set_listen_playback_device] builds in [w]: the empty
    value for the default device, the string value of the resolved GUID for
    a name that resolves. *)
Definition route_value (w : World) (playback_device_name : option string)
    (v : PROPVARIANT) : Prop :=
  match playback_device_name with
  | None => v = PROPVARIANT_new VT_EMPTY
  | Some name =>
      exists guid, result (find_device_guid_by_name name) w = Return guid /\
                   v = playback_variant guid
  end.

(** The calls made to build it: none, or one name resolution. *)
Definition route_calls (playback_device_name : option string) : list Event :=
  match playback_device_name with
  | None => []
  | Some _ => resolve_calls
  end.

(** What [apply_listen_settings] does once the enabled flag is written. *)
Definition route_commit_report (store : IPropertyStore) (enabled_to_set : bool)
    (playback : option string) (verbose : bool) : M unit :=
  set_listen_playback_device store playback ;;
  try_except (Commit store) (fun _ => ret tt) ;;
  if verbose then
    let state := if enabled_to_set then "ON" else "OFF" in
    let target := py_or playback "Default playback device" in
    print ("[micmon] Listen to this device: " ++ state)%string ;;
    print ("[micmon] Playback through this device: " ++ target)%string
  else ret tt.

(** The calls up to and including the write of the enabled flag. *)
Definition flag_calls (store : IPropertyStore) (enabled_to_set : bool) : list Event :=
  open_calls store ++
  [CallGetValue store _listen_checkbox_property_key;
   CallSetValue store _listen_checkbox_property_key (enabled_variant enabled_to_set)].

(** [keeps R c]: running [c] takes every world to one related to it by [R]. *)
Definition keeps (R : World -> World -> Prop) {A} (c : M A) : Prop :=
  forall w, R w (after c w).

(** After the flag is written: the OS is the same, the flag of [store] is
    untouched, and the log of calls has only grown. *)
Definition continues (store : IPropertyStore) (w w' : World) : Prop :=
  os w' = os w /\
  props w' store _listen_checkbox_property_key =
    props w store _listen_checkbox_property_key /\
  exists later, trace w' = trace w ++ later.

(** The direction context the specification attaches to a name that does
    not resolve. *)
Inductive Direction : Type := Input | Output.

(** The calls of an enumeration. *)
Definition is_enumeration_call (ev : Event) : bool :=
  match ev with
  | CallCoCreateInstance | CallEnumAudioEndpoints _ => true
  | _ => false
  end.

(** [w'] is [w] with some calls logged, all of them satisfying [allowed]:
    same OS, same property values, same output. *)
Definition logged (allowed : Event -> bool) (w w' : World) : Prop :=
  exists calls, w' = log_events calls w /\ forallb allowed calls = true.

(* ================================================================= *)
(** ** The demo machine's worlds *)

Definition demo_world : World := Demo.boot Demo.healthy Demo.configured.

Definition demo_inputs : list DeviceInfo :=
  [{| id := "{0.0.1.00000000}.{mic}";
      friendly_name := Some "Microphone (USB Audio)"; direction := "input" |};
   {| id := "{0.0.1.00000000}.{hs-in}";
      friendly_name := Some "Headset (Bluetooth)"; direction := "input" |}].

Definition demo_outputs : list DeviceInfo :=
  [{| id := "{0.0.0.00000000}.{spk}";
      friendly_name := Some "Speakers (Realtek)"; direction := "output" |};
   {| id := "{0.0.0.00000000}.{hs-out}";
      friendly_name := Some "Headset (Bluetooth)"; direction := "output" |}].

Definition demo_mic_store : IPropertyStore := "{0.0.1.00000000}.{mic}".

Definition route_denied_world : World := Demo.boot Demo.route_write_denied Demo.configured.
Definition flag_denied_world : World := Demo.boot Demo.flag_write_denied Demo.configured.

Definition commit_fails_world : World := Demo.boot Demo.commit_fails Demo.configured.

(** A machine whose recording endpoints have awkward names; the calls
    answer as on the healthy one. *)
Definition awkward_items : IMMDeviceCollection :=
  [Some {| AudioDevice.id := "{0.0.1.00000000}.{cable}";
           AudioDevice.FriendlyName := Some "None (virtual cable)" |};
   Some {| AudioDevice.id := "{0.0.1.00000000}.{line}";
           AudioDevice.FriendlyName := Some "Line In" |};
   None;
   Some {| AudioDevice.id := "{0.0.1.00000000}.{mixer}";
           AudioDevice.FriendlyName := Some "Mixer: None" |};
   Some Demo.ghost].

Definition awkward_os : OS :=
  {| CoCreateInstance_result := ComOk true;
     EnumAudioEndpoints_result := fun flow =>
       match flow with
       | eCapture => ComOk (Some awkward_items)
       | eRender => ComOk (Some [Some Demo.speakers])
       end;
     GetDeviceEnumerator_result := ComOk tt;
     GetDevice_result := fun _ => ComOk true;
     OpenPropertyStore_result := fun _ => ComOk tt;
     SetValue_result := fun _ _ _ => ComOk tt;
     Commit_result := fun _ => ComOk tt |}.

Definition awkward_world : World := Demo.boot awkward_os Demo.untouched.

Definition line_in : DeviceInfo :=
  {| id := "{0.0.1.00000000}.{line}"; friendly_name := Some "Line In"; direction := "input" |}.

Definition virtual_cable : DeviceInfo :=
  {| id := "{0.0.1.00000000}.{cable}"; friendly_name := Some "None (virtual cable)";
     direction := "input" |}.

(** The healthy machine, except that the render endpoints cannot be
    enumerated. *)
Definition render_fails_os : OS :=
  {| CoCreateInstance_result := ComOk true;
     EnumAudioEndpoints_result := fun flow =>
       match flow with
       | eCapture => EnumAudioEndpoints_result Demo.healthy eCapture
       | eRender => ComFail (-2147023728)%Z "Element not found."
       end;
     GetDeviceEnumerator_result := ComOk tt;
     GetDevice_result := fun _ => ComOk true;
     OpenPropertyStore_result := fun _ => ComOk tt;
     SetValue_result := fun _ _ _ => ComOk tt;
     Commit_result := fun _ => ComOk tt |}.

Definition render_fails_world : World := Demo.boot render_fails_os Demo.configured.

(** The healthy machine, except that [GetDevice] answers [None]: the
    endpoint went away between resolution and opening. *)
Definition device_gone_os : OS :=
  {| CoCreateInstance_result := ComOk true;
     EnumAudioEndpoints_result := EnumAudioEndpoints_result Demo.healthy;
     GetDeviceEnumerator_result := ComOk tt;
     GetDevice_result := fun _ => ComOk false;
     OpenPropertyStore_result := fun _ => ComOk tt;
     SetValue_result := fun _ _ _ => ComOk tt;
     Commit_result := fun _ => ComOk tt |}.

Definition device_gone_world : World := Demo.boot device_gone_os Demo.configured.



(** The value of key [k] in store [s] is as it was. *)
Definition same_value (s : IPropertyStore) (k : PROPERTYKEY) (w w' : World) : Prop :=
  props w' s k = props w s k.






(** The lines [print_devices] prints for one list of descriptors. *)
Definition device_lines (devs : list DeviceInfo) : list string :=
  match devs with
  | [] => ["  (none)"]
  | _ => map (fun d => ("  - " ++ format_name (friendly_name d))%string) devs
  end.








(** The calls that change a store. *)
Definition is_write_call (ev : Event) : bool :=
  match ev with
  | CallSetValue _ _ _ | CallCommit _ => true
  | _ => false
  end.

(** Stores that hold no value: every read is answered with the empty
    value. *)
Definition answers_empty (s : IPropertyStore) (k : PROPERTYKEY) : com PROPVARIANT :=
  ComOk (PROPVARIANT_new VT_EMPTY).

Definition unset_world : World := Demo.boot Demo.healthy answers_empty.




(* ================================================================= *)
(** ** Running the program: equations for each function *)

Lemma log_events_app (e1 e2 : list Event) (w : World) :
  log_events e2 (log_events e1 w) = log_events (e1 ++ e2) w.
Proof. unfold log_events; simpl. now rewrite app_assoc. Qed.

Lemma bind_Return {A B} (c : M A) (k : A -> M B) w a w' :
  run c w = (Return a, w') -> run (bind c k) w = run (k a) w'.
Proof. unfold run, bind. now intros ->. Qed.

Lemma bind_Raise {A B} (c : M A) (k : A -> M B) w e w' :
  run c w = (Raise e, w') -> run (bind c k) w = (Raise e, w').
Proof. unfold run, bind. now intros ->. Qed.

Lemma valid_direction_eqb (direction : string) :
  negb (String.eqb direction "input" || String.eqb direction "output") = false <->
  direction = "input" \/ direction = "output".
Proof.
  rewrite negb_false_iff, orb_true_iff, !String.eqb_eq. tauto.
Qed.

Lemma get_active_devices_run (direction : string) (w : World) devs :
  direction = "input" \/ direction = "output" ->
  enumerates (os w) direction devs ->
  run (get_active_devices direction) w =
  (Return devs,
   log_events [CallCoCreateInstance; CallEnumAudioEndpoints (e_dataflow_of direction)] w).
Proof.
  intros Hd [Hc [items [He ->]]].
  unfold run, get_active_devices.
  apply valid_direction_eqb in Hd. rewrite Hd.
  unfold bind, CoCreateInstance, EnumAudioEndpoints, com_call, log_event.
  rewrite Hc. simpl. fold (e_dataflow_of direction). rewrite He.
  unfold ret. now rewrite log_events_app.
Qed.

Lemma get_active_devices_inv (direction : string) (w : World) devs :
  result (get_active_devices direction) w = Return devs ->
  (direction = "input" \/ direction = "output") /\ enumerates (os w) direction devs.
Proof.
  unfold result, get_active_devices.
  destruct (negb (String.eqb direction "input" || String.eqb direction "output")) eqn:Hd;
    [discriminate|].
  apply valid_direction_eqb in Hd.
  unfold bind, CoCreateInstance, EnumAudioEndpoints, com_call, enumerates.
  destruct (CoCreateInstance_result (os w)) as [[|]|] eqn:Hc; simpl; try discriminate.
  fold (e_dataflow_of direction).
  destruct (EnumAudioEndpoints_result (os w) (e_dataflow_of direction))
    as [[items|]|] eqn:He; simpl; try discriminate.
  intros [= <-]. split; [exact Hd|]. split; [reflexivity|]. now exists items.
Qed.

Lemma find_device_guid_by_name_run (name : string) (w : World) ins outs :
  enumerates (os w) "input" ins ->
  enumerates (os w) "output" outs ->
  run (find_device_guid_by_name name) w =
  (match first_named name (ins ++ outs) with
   | Some guid => Return guid
   | None => Raise (not_found name)
   end,
   log_events resolve_calls w).
Proof.
  intros Hi Ho. unfold find_device_guid_by_name.
  rewrite (bind_Return _ _ w ins _ (get_active_devices_run "input" w ins (or_introl eq_refl) Hi)).
  erewrite bind_Return
    by (apply (get_active_devices_run "output" _ outs (or_intror eq_refl)); exact Ho).
  rewrite log_events_app.
  destruct (first_named name (ins ++ outs)); reflexivity.
Qed.

Lemma find_device_guid_by_name_inv (name : string) (w : World) guid :
  result (find_device_guid_by_name name) w = Return guid ->
  exists ins outs,
    enumerates (os w) "input" ins /\ enumerates (os w) "output" outs /\
    first_named name (ins ++ outs) = Some guid.
Proof.
  unfold result, find_device_guid_by_name, bind.
  destruct (get_active_devices "input" w) as [[ins|e] w1] eqn:H1; [|discriminate].
  destruct (get_active_devices "output" w1) as [[outs|e] w2] eqn:H2; [|discriminate].
  assert (Hi : result (get_active_devices "input") w = Return ins)
    by (unfold result; now rewrite H1).
  assert (Ho : result (get_active_devices "output") w1 = Return outs)
    by (unfold result; now rewrite H2).
  apply get_active_devices_inv in Hi as [_ Hi].
  apply get_active_devices_inv in Ho as [_ Ho].
  pose proof (get_active_devices_run "input" w ins (or_introl eq_refl) Hi) as Hr.
  unfold run in Hr. rewrite H1 in Hr. injection Hr as Hw1. subst w1. simpl in Ho.
  intros H. exists ins, outs. split; [exact Hi|]. split; [exact Ho|].
  destruct (first_named name (ins ++ outs)); simpl in H; [now injection H as ->|discriminate].
Qed.

Lemma open_property_store_for_device_run (device_name : string) (w : World) ins outs guid :
  enumerates (os w) "input" ins ->
  enumerates (os w) "output" outs ->
  first_named device_name (ins ++ outs) = Some guid ->
  opens (os w) guid ->
  run (open_property_store_for_device device_name) w =
  (Return guid, log_events (open_calls guid) w).
Proof.
  intros Hi Ho Hf (Hg & Hd & Hs).
  unfold open_property_store_for_device.
  erewrite bind_Return by (rewrite (find_device_guid_by_name_run _ _ _ _ Hi Ho), Hf; reflexivity).
  unfold run, bind, GetDeviceEnumerator, GetDevice, OpenPropertyStore, bind, com_call, log_event.
  simpl. rewrite Hg. simpl. rewrite Hd. simpl. rewrite Hs. unfold ret.
  rewrite !log_events_app. reflexivity.
Qed.

Lemma open_property_store_for_device_inv (device_name : string) (w : World) store :
  result (open_property_store_for_device device_name) w = Return store ->
  exists ins outs,
    enumerates (os w) "input" ins /\ enumerates (os w) "output" outs /\
    first_named device_name (ins ++ outs) = Some store /\ opens (os w) store.
Proof.
  unfold result, open_property_store_for_device. unfold bind at 1.
  destruct (find_device_guid_by_name device_name w) as [[guid|e] w1] eqn:H1; [|discriminate].
  assert (Hf : result (find_device_guid_by_name device_name) w = Return guid)
    by (unfold result; now rewrite H1).
  destruct (find_device_guid_by_name_inv _ _ _ Hf) as (ins & outs & Hi & Ho & Hn).
  pose proof (find_device_guid_by_name_run device_name w ins outs Hi Ho) as Hr.
  unfold run in Hr. rewrite H1, Hn in Hr. injection Hr as Hw1. subst w1.
  unfold bind, GetDeviceEnumerator, GetDevice, OpenPropertyStore, bind, com_call, opens.
  simpl.
  destruct (GetDeviceEnumerator_result (os w)) as [[]|] eqn:Hg; simpl; try discriminate.
  destruct (GetDevice_result (os w) guid) as [[|]|] eqn:Hd; simpl; try discriminate.
  destruct (OpenPropertyStore_result (os w) guid) as [[]|] eqn:Hs; simpl; try discriminate.
  intros [= <-]. exists ins, outs.
  split; [exact Hi|]. split; [exact Ho|]. split; [exact Hn|]. repeat split; assumption.
Qed.

Lemma get_listen_enabled_run (store : IPropertyStore) (w : World) :
  run (get_listen_enabled store) w =
  (Return (decoded (props w store _listen_checkbox_property_key)),
   log_events [CallGetValue store _listen_checkbox_property_key] w).
Proof.
  unfold run, get_listen_enabled, try_except, bind, GetValue, com_call, log_event, decoded.
  destruct (props w store _listen_checkbox_property_key); reflexivity.
Qed.

Lemma set_listen_enabled_run (store : IPropertyStore) (enabled : bool) (w : World) :
  run (set_listen_enabled store enabled) w =
  let call := CallSetValue store _listen_checkbox_property_key (enabled_variant enabled) in
  match SetValue_result (os w) store _listen_checkbox_property_key (enabled_variant enabled) with
  | ComOk _ =>
      (Return tt,
       write_prop store _listen_checkbox_property_key (enabled_variant enabled)
         (log_events [call] w))
  | ComFail h t => (Raise (COMError h t), log_events [call] w)
  end.
Proof. reflexivity. Qed.

Lemma get_listen_enabled_result (store : IPropertyStore) (w : World) current :
  result (get_listen_enabled store) w = Return current ->
  current = decoded (props w store _listen_checkbox_property_key).
Proof.
  change (fst (run (get_listen_enabled store) w) = Return current -> 
          current = decoded (props w store _listen_checkbox_property_key)).
  rewrite get_listen_enabled_run. simpl. now intros [= <-].
Qed.

(** A written value is what the store then answers for that key. *)
Lemma write_prop_same s k v w : props (write_prop s k v w) s k = ComOk v.
Proof.
  unfold write_prop, PROPERTYKEY_eqb; simpl.
  now rewrite !String.eqb_refl, Z.eqb_refl.
Qed.

Lemma print_lines_nil (w : World) : print_lines [] w = w.
Proof. destruct w; unfold print_lines; simpl. now rewrite app_nil_r. Qed.

Lemma set_listen_playback_device_run store playback (w w0 : World) v :
  os w = os w0 ->
  route_value w0 playback v ->
  run (set_listen_playback_device store playback) w =
  let calls := route_calls playback ++ [CallSetValue store _listen_playback_property_key v] in
  match SetValue_result (os w) store _listen_playback_property_key v with
  | ComOk _ =>
      (Return tt, write_prop store _listen_playback_property_key v (log_events calls w))
  | ComFail h t => (Raise (COMError h t), log_events calls w)
  end.
Proof.
  intros Hos Hv. destruct playback as [name|]; simpl in Hv.
  - destruct Hv as (guid & Hf & ->).
    destruct (find_device_guid_by_name_inv _ _ _ Hf) as (ins & outs & Hi & Ho & Hn).
    rewrite <- Hos in Hi, Ho.
    unfold set_listen_playback_device.
    erewrite bind_Return; cycle 1.
    { erewrite bind_Return
        by (rewrite (find_device_guid_by_name_run _ _ _ _ Hi Ho), Hn; reflexivity).
      reflexivity. }
    unfold run, SetValue, log_event. simpl.
    destruct (SetValue_result (os w) store _listen_playback_property_key (playback_variant guid));
      rewrite log_events_app; reflexivity.
  - subst v. unfold run, set_listen_playback_device, bind, ret, SetValue, log_event. simpl.
    destruct (SetValue_result (os w) store _listen_playback_property_key (PROPVARIANT_new VT_EMPTY));
      reflexivity.
Qed.

Lemma set_listen_playback_device_not_found store name (w : World) ins outs :
  enumerates (os w) "input" ins ->
  enumerates (os w) "output" outs ->
  first_named name (ins ++ outs) = None ->
  run (set_listen_playback_device store (Some name)) w =
  (Raise (not_found name), log_events resolve_calls w).
Proof.
  intros Hi Ho Hn. unfold set_listen_playback_device.
  erewrite bind_Raise; [reflexivity|].
  erewrite bind_Raise; [reflexivity|].
  now rewrite (find_device_guid_by_name_run _ _ _ _ Hi Ho), Hn.
Qed.

Lemma commit_and_report_run store (enabled_to_set : bool) playback (verbose : bool)
    (w : World) :
  run (try_except (Commit store) (fun _ => ret tt) ;;
       if verbose then
         let state := if enabled_to_set then "ON" else "OFF" in
         let target := py_or playback "Default playback device" in
         print ("[micmon] Listen to this device: " ++ state)%string ;;
         print ("[micmon] Playback through this device: " ++ target)%string
       else ret tt) w =
  (Return tt,
   print_lines (if verbose then report_lines enabled_to_set playback else [])
     (log_events [CallCommit store] w)).
Proof.
  unfold run, bind, try_except, Commit, com_call, log_event, ret, print.
  destruct (Commit_result (os w) store); destruct verbose; simpl;
    rewrite ?print_lines_nil; try reflexivity;
    unfold write_line, print_lines, report_lines; simpl; now rewrite <- app_assoc.
Qed.

(** [apply_listen_settings] up to the Writing phase: the store is open and
    the current flag read; what remains runs in the world that has logged
    those calls. *)
Lemma apply_listen_settings_reading mic enabled playback verbose (w : World) store :
  result (open_property_store_for_device mic) w = Return store ->
  run (apply_listen_settings mic enabled playback verbose) w =
  let enabled_to_set : bool :=
    enabled_target enabled (decoded (props w store _listen_checkbox_property_key)) in
  run (set_listen_enabled store enabled_to_set ;;
       set_listen_playback_device store playback ;;
       try_except (Commit store) (fun _ => ret tt) ;;
       if verbose then
         let state := if enabled_to_set then "ON" else "OFF" in
         let target := py_or playback "Default playback device" in
         print ("[micmon] Listen to this device: " ++ state)%string ;;
         print ("[micmon] Playback through this device: " ++ target)%string
       else ret tt)
      (log_events (open_calls store ++ [CallGetValue store _listen_checkbox_property_key]) w).
Proof.
  intros Hopen.
  destruct (open_property_store_for_device_inv _ _ _ Hopen) as (ins & outs & Hi & Ho & Hn & Hs).
  unfold apply_listen_settings.
  erewrite bind_Return by (apply (open_property_store_for_device_run _ _ _ _ _ Hi Ho Hn Hs)).
  erewrite bind_Return by apply get_listen_enabled_run.
  rewrite log_events_app. reflexivity.
Qed.

(* ================================================================= *)
(** ** The resolver's loop *)

Lemma first_named_first (name : string) (before : list DeviceInfo) dev rest :
  friendly_name dev = Some name ->
  (forall d, In d before -> friendly_name d <> Some name) ->
  first_named name (before ++ dev :: rest) = Some (id dev).
Proof.
  intros Hdev. induction before as [|d before IH]; intros Hbefore; simpl.
  - now rewrite Hdev, String.eqb_refl.
  - assert (Hd : friendly_name d <> Some name) by (apply Hbefore; now left).
    destruct (friendly_name d) as [n|].
    + destruct (String.eqb_spec n name) as [->|_]; [now elim Hd|].
      apply IH. intros d' Hin. apply Hbefore. now right.
    + apply IH. intros d' Hin. apply Hbefore. now right.
Qed.

Lemma first_named_None (name : string) (devs : list DeviceInfo) :
  first_named name devs = None <->
  (forall d, In d devs -> friendly_name d <> Some name).
Proof.
  induction devs as [|d devs IH]; simpl.
  - split; [intros _ d []|reflexivity].
  - destruct (friendly_name d) as [n|] eqn:Hn.
    + destruct (String.eqb_spec n name) as [->|Hne].
      * split; [discriminate|]. intros H. elim (H d); [now left|exact Hn].
      * rewrite IH. split.
        -- intros H d' [<-|Hin]; [rewrite Hn; congruence|now apply H].
        -- intros H d' Hin. apply H. now right.
    + rewrite IH. split.
      * intros H d' [<-|Hin]; [rewrite Hn; discriminate|now apply H].
      * intros H d' Hin. apply H. now right.
Qed.

Lemma first_named_Some (name : string) (devs : list DeviceInfo) :
  (exists guid, first_named name devs = Some guid) <->
  In (Some name) (map friendly_name devs).
Proof.
  split.
  - intros [guid H]. induction devs as [|d devs IH]; simpl in *; [discriminate|].
    destruct (friendly_name d) as [n|]; [|right; now apply IH].
    destruct (String.eqb_spec n name) as [E|_]; [left; now rewrite E|right; now apply IH].
  - intros Hin. apply in_map_iff in Hin as (d & Hd & Hin).
    destruct (first_named name devs) as [guid|] eqn:H; [now exists guid|].
    rewrite first_named_None in H. now elim (H d Hin).
Qed.

(* ================================================================= *)
(** ** The demo machine's endpoints *)

Lemma demo_inputs_listed :
  result (get_active_devices "input") demo_world = Return demo_inputs.
Proof. reflexivity. Qed.

Lemma demo_outputs_listed :
  result (get_active_devices "output") demo_world = Return demo_outputs.
Proof. reflexivity. Qed.

(* ================================================================= *)
(** ** Endpoint enumerator *)

(** C10. A direction other than the strings "input" and "output" makes
    [get_active_devices] raise its [ValueError] in an unchanged world: no OS
    call has been logged.  When the enumeration returns, the direction was
    one of the two, and every descriptor carries it. *)
Theorem get_active_devices_direction (dir : string) (w : World) :
  (dir <> "input" -> dir <> "output" ->
   run (get_active_devices dir) w =
   (Raise (ValueError "direction must be 'input' or 'output'"), w)) /\
  (forall devs,
     result (get_active_devices dir) w = Return devs ->
     (dir = "input" \/ dir = "output") /\
     Forall (fun d => direction d = dir) devs).
Proof.
  split.
  - intros Hi Ho. unfold run, get_active_devices.
    destruct (String.eqb_spec dir "input"); [contradiction|].
    destruct (String.eqb_spec dir "output"); [contradiction|].
    reflexivity.
  - intros devs H. apply get_active_devices_inv in H as [Hd [_ [items [_ ->]]]].
    split; [exact Hd|].
    induction items as [|[device|] items IH]; cbn [collect_devices];
      [constructor| |exact IH].
    destruct (contains ": None" (AudioDevice.str device));
      [exact IH|constructor; [reflexivity|exact IH]].
Qed.

Lemma get_active_devices_direction_witness :
  run (get_active_devices "Input") demo_world =
  (Raise (ValueError "direction must be 'input' or 'output'"), demo_world) /\
  Forall (fun d => direction d = "output") demo_outputs.
Proof.
  split.
  - apply (proj1 (get_active_devices_direction "Input" demo_world)); discriminate.
  - apply (proj2 (get_active_devices_direction "output" demo_world) demo_outputs).
    reflexivity.
Defined.

(* ================================================================= *)
(** ** Name resolver *)

(** C6. With the two enumerations answering [ins] and [outs], the resolver
    asks for the capture endpoints, then for the render endpoints, and
    returns the identifier of the first descriptor of [ins ++ outs] whose
    name is the argument itself; descriptors after it, same name or not, do
    not matter. *)
Theorem find_device_guid_by_name_first_match (name : string) (w : World) ins outs :
  result (get_active_devices "input") w = Return ins ->
  result (get_active_devices "output") w = Return outs ->
  trace (after (find_device_guid_by_name name) w) =
    trace w ++ [CallCoCreateInstance; CallEnumAudioEndpoints eCapture;
                CallCoCreateInstance; CallEnumAudioEndpoints eRender] /\
  forall before dev rest,
    ins ++ outs = before ++ dev :: rest ->
    friendly_name dev = Some name ->
    (forall d, In d before -> friendly_name d <> Some name) ->
    result (find_device_guid_by_name name) w = Return (id dev).
Proof.
  intros Hi Ho.
  apply get_active_devices_inv in Hi as [_ Hi].
  apply get_active_devices_inv in Ho as [_ Ho].
  pose proof (find_device_guid_by_name_run name w ins outs Hi Ho) as Hrun.
  unfold run in Hrun. unfold result, after. rewrite Hrun. simpl.
  split; [reflexivity|].
  intros before dev rest Hsplit Hdev Hbefore.
  now rewrite Hsplit, (first_named_first name before dev rest Hdev Hbefore).
Qed.

Lemma find_device_guid_by_name_first_match_witness :
  result (find_device_guid_by_name "Headset (Bluetooth)") demo_world =
    Return "{0.0.1.00000000}.{hs-in}" /\
  result (find_device_guid_by_name "headset (bluetooth)") demo_world =
    Raise (ValueError "Audio device not found: 'headset (bluetooth)'").
Proof.
  split; [|reflexivity].
  refine (proj2 (find_device_guid_by_name_first_match "Headset (Bluetooth)" demo_world
                   demo_inputs demo_outputs eq_refl eq_refl)
            [nth 0 demo_inputs (Build_DeviceInfo EmptyString None EmptyString)]
            (nth 1 demo_inputs (Build_DeviceInfo EmptyString None EmptyString))
            demo_outputs eq_refl eq_refl _).
  intros d [<-|[]]. discriminate.
Defined.

(** C8. Over one set of active devices, a name resolves exactly when it is
    among the names of the listed inputs or of the listed outputs. *)
Theorem resolve_iff_listed (name : string) (w : World) ins outs :
  result (get_active_devices "input") w = Return ins ->
  result (get_active_devices "output") w = Return outs ->
  (exists guid, result (find_device_guid_by_name name) w = Return guid) <->
  In (Some name) (map friendly_name ins ++ map friendly_name outs).
Proof.
  intros Hi Ho.
  apply get_active_devices_inv in Hi as [_ Hi].
  apply get_active_devices_inv in Ho as [_ Ho].
  pose proof (find_device_guid_by_name_run name w ins outs Hi Ho) as Hrun.
  unfold run in Hrun. unfold result. rewrite Hrun. simpl.
  rewrite <- map_app, <- first_named_Some.
  destruct (first_named name (ins ++ outs)) as [guid|].
  - split; intros _; now exists guid.
  - split; intros [guid H]; discriminate.
Qed.

Lemma resolve_iff_listed_witness :
  (exists guid,
     result (find_device_guid_by_name "Speakers (Realtek)") demo_world = Return guid) /\
  ~ In (Some "NonexistentMic") (map friendly_name demo_inputs ++ map friendly_name demo_outputs).
Proof.
  split.
  - apply (proj2 (resolve_iff_listed "Speakers (Realtek)" demo_world
                    demo_inputs demo_outputs eq_refl eq_refl)).
    simpl. right. right. left. reflexivity.
  - intros Hin.
    destruct (proj2 (resolve_iff_listed "NonexistentMic" demo_world
                       demo_inputs demo_outputs eq_refl eq_refl) Hin) as [guid H].
    discriminate H.
Defined.

(* ================================================================= *)
(** ** Listen-state codec *)

(** C9 (amended). Reading the enabled flag never raises: a failed
    [GetValue] gives [None]; an answered one gives the truth value of the
    [boolVal] of the answer, whatever its type tag, so that the empty value
    a store answers for a key it does not hold reads as [False], not as
    [None].  Only the call is logged. *)
Theorem get_listen_enabled_never_raises (store : IPropertyStore) (w : World) :
  run (get_listen_enabled store) w =
  (Return
     match props w store _listen_checkbox_property_key with
     | ComFail _ _ => None
     | ComOk current => Some (negb (Z.eqb (boolVal current) 0))
     end,
   log_event (CallGetValue store _listen_checkbox_property_key) w).
Proof.
  rewrite get_listen_enabled_run. unfold decoded, py_bool, log_event.
  destruct (props w store _listen_checkbox_property_key); reflexivity.
Qed.

(* ================================================================= *)
(** ** Apply: failures of name resolution *)

(** C5 (amended). When both enumerations answer and no descriptor has the
    microphone name, [apply_listen_settings] raises the [ValueError] that
    quotes the name and nothing else (no direction), and the only OS calls
    made are the four of the resolution: no store was opened, nothing was
    read or written. *)
Theorem apply_unknown_microphone (name : string) (enabled : option bool)
    (playback : option string) (verbose : bool) (w : World) ins outs :
  result (get_active_devices "input") w = Return ins ->
  result (get_active_devices "output") w = Return outs ->
  (forall d, In d (ins ++ outs) -> friendly_name d <> Some name) ->
  run (apply_listen_settings name enabled playback verbose) w =
  (Raise (ValueError ("Audio device not found: " ++ py_repr name)%string),
   log_events [CallCoCreateInstance; CallEnumAudioEndpoints eCapture;
               CallCoCreateInstance; CallEnumAudioEndpoints eRender] w).
Proof.
  intros Hi Ho Hnone.
  apply get_active_devices_inv in Hi as [_ Hi].
  apply get_active_devices_inv in Ho as [_ Ho].
  apply first_named_None in Hnone.
  unfold apply_listen_settings, open_property_store_for_device.
  erewrite bind_Raise; [reflexivity|].
  erewrite bind_Raise; [reflexivity|].
  now rewrite (find_device_guid_by_name_run _ _ _ _ Hi Ho), Hnone.
Qed.

Lemma apply_unknown_microphone_witness :
  let w' := after (apply_listen_settings "NonexistentMic" (Some true) None true) demo_world in
  result (apply_listen_settings "NonexistentMic" (Some true) None true) demo_world =
    Raise (ValueError "Audio device not found: 'NonexistentMic'") /\
  props w' = props demo_world /\
  trace w' = [CallCoCreateInstance; CallEnumAudioEndpoints eCapture;
              CallCoCreateInstance; CallEnumAudioEndpoints eRender] /\
  stdout w' = [].
Proof.
  assert (Hnone : forall d, In d (demo_inputs ++ demo_outputs) ->
                            friendly_name d <> Some "NonexistentMic").
  { intros d [<-|[<-|[<-|[<-|[]]]]]; discriminate. }
  pose proof (apply_unknown_microphone "NonexistentMic" (Some true) None true demo_world
                demo_inputs demo_outputs eq_refl eq_refl Hnone) as H.
  unfold result, after. unfold run in H. rewrite H. repeat split.
Defined.

(** C5, as stated, fails: the error for an unknown microphone name is the
    error for the same unknown name given as playback device, so nothing in
    it tells the Input context from the Output one. *)
Lemma not_found_error_has_no_direction :
  result (apply_listen_settings "NonexistentMic" (Some true) None true) demo_world =
    Raise (ValueError "Audio device not found: 'NonexistentMic'") /\
  ~ exists context : exn -> Direction,
      (forall e,
         result (apply_listen_settings "NonexistentMic" (Some true) None true) demo_world =
           Raise e -> context e = Input) /\
      (forall e,
         result (apply_listen_settings "Microphone (USB Audio)" (Some true)
                   (Some "NonexistentMic") true) demo_world =
           Raise e -> context e = Output).
Proof.
  split; [reflexivity|].
  intros (context & Hin & Hout).
  specialize (Hin _ eq_refl). specialize (Hout _ eq_refl). congruence.
Qed.

(** C1 (amended). With the microphone's store open and the write of the
    enabled flag accepted, a playback name that matches no active device
    makes [apply_listen_settings] raise the not-found [ValueError] for that
    name, but only after the flag has been written: the name is resolved
    inside [set_listen_playback_device].  The flag holds the new value; the
    route target is as it was and no write of it was attempted. *)
Theorem apply_unknown_playback_device (mic : string) (enabled : option bool)
    (out : string) (verbose : bool) (w : World) store current ins outs :
  result (open_property_store_for_device mic) w = Return store ->
  result (get_listen_enabled store) w = Return current ->
  SetValue_result (os w) store _listen_checkbox_property_key
    (enabled_variant (enabled_target enabled current)) = ComOk tt ->
  result (get_active_devices "input") w = Return ins ->
  result (get_active_devices "output") w = Return outs ->
  (forall d, In d (ins ++ outs) -> friendly_name d <> Some out) ->
  let w' := after (apply_listen_settings mic enabled (Some out) verbose) w in
  result (apply_listen_settings mic enabled (Some out) verbose) w =
    Raise (ValueError ("Audio device not found: " ++ py_repr out)%string) /\
  trace w' =
    trace (after (open_property_store_for_device mic) w) ++
    [CallGetValue store _listen_checkbox_property_key;
     CallSetValue store _listen_checkbox_property_key
       (enabled_variant (enabled_target enabled current));
     CallCoCreateInstance; CallEnumAudioEndpoints eCapture;
     CallCoCreateInstance; CallEnumAudioEndpoints eRender] /\
  props w' store _listen_checkbox_property_key =
    ComOk (enabled_variant (enabled_target enabled current)) /\
  props w' store _listen_playback_property_key =
    props w store _listen_playback_property_key.
Proof.
  intros Hopen Hcur Hset Hi Ho Hnone w'.
  assert (Hrun : run (apply_listen_settings mic enabled (Some out) verbose) w =
    (Raise (not_found out),
     log_events resolve_calls
       (write_prop store _listen_checkbox_property_key
          (enabled_variant (enabled_target enabled current))
          (log_events [CallSetValue store _listen_checkbox_property_key
                         (enabled_variant (enabled_target enabled current))]
             (log_events (open_calls store ++
                          [CallGetValue store _listen_checkbox_property_key]) w))))).
  { rewrite (apply_listen_settings_reading _ _ _ _ _ _ Hopen). cbv zeta.
    apply get_listen_enabled_result in Hcur as <-.
    apply get_active_devices_inv in Hi as [_ Hi].
    apply get_active_devices_inv in Ho as [_ Ho].
    apply first_named_None in Hnone.
    erewrite bind_Return
      by (rewrite set_listen_enabled_run; cbv zeta; simpl os; rewrite Hset; reflexivity).
    erewrite bind_Raise; [reflexivity|].
    apply (set_listen_playback_device_not_found store out _ ins outs); assumption. }
  destruct (open_property_store_for_device_inv _ _ _ Hopen) as (i & o & Hi' & Ho' & Hn & Hs).
  pose proof (open_property_store_for_device_run _ _ _ _ _ Hi' Ho' Hn Hs) as Hopenrun.
  unfold run in Hrun, Hopenrun. subst w'. unfold result, after.
  rewrite Hrun, Hopenrun. simpl fst. simpl snd.
  split; [reflexivity|]. split.
  - simpl. rewrite <- !app_assoc. reflexivity.
  - split; [apply write_prop_same|].
    simpl props at 1. now rewrite andb_false_r.
Qed.

Lemma demo_nobody_is_named (name : string) :
  first_named name (demo_inputs ++ demo_outputs) = None ->
  forall d, In d (demo_inputs ++ demo_outputs) -> friendly_name d <> Some name.
Proof. intros H. now apply first_named_None. Defined.

Lemma apply_unknown_playback_device_witness :
  let run_it :=
    apply_listen_settings "Microphone (USB Audio)" (Some true) (Some "NonexistentSpeaker") true in
  result run_it demo_world =
    Raise (ValueError "Audio device not found: 'NonexistentSpeaker'") /\
  props (after run_it demo_world) demo_mic_store _listen_checkbox_property_key =
    ComOk (enabled_variant true) /\
  props (after run_it demo_world) demo_mic_store _listen_playback_property_key =
    ComOk (playback_variant "{0.0.0.00000000}.{spk}").
Proof.
  pose proof (apply_unknown_playback_device "Microphone (USB Audio)" (Some true)
                "NonexistentSpeaker" true demo_world demo_mic_store (Some false)
                demo_inputs demo_outputs eq_refl eq_refl eq_refl eq_refl eq_refl
                (demo_nobody_is_named "NonexistentSpeaker" eq_refl))
    as (Hres & _ & Hflag & Hroute).
  split; [exact Hres|]. split; [exact Hflag|exact Hroute].
Defined.

(** C1, as stated, fails: on the demo machine, where the flag is off and
    the playback name matches nothing, the operation ends in the not-found
    error with the flag already switched on; the write of the flag comes
    before the second resolution in the log of calls. *)
Lemma unknown_playback_device_after_flag_write :
  let run_it :=
    apply_listen_settings "Microphone (USB Audio)" (Some true) (Some "NonexistentSpeaker") true in
  result run_it demo_world =
    Raise (ValueError "Audio device not found: 'NonexistentSpeaker'") /\
  props demo_world demo_mic_store _listen_checkbox_property_key =
    ComOk (enabled_variant false) /\
  props (after run_it demo_world) demo_mic_store _listen_checkbox_property_key =
    ComOk (enabled_variant true) /\
  trace (after run_it demo_world) =
    [CallCoCreateInstance; CallEnumAudioEndpoints eCapture;
     CallCoCreateInstance; CallEnumAudioEndpoints eRender;
     CallGetDeviceEnumerator; CallGetDevice demo_mic_store;
     CallOpenPropertyStore demo_mic_store;
     CallGetValue demo_mic_store _listen_checkbox_property_key;
     CallSetValue demo_mic_store _listen_checkbox_property_key (enabled_variant true);
     CallCoCreateInstance; CallEnumAudioEndpoints eCapture;
     CallCoCreateInstance; CallEnumAudioEndpoints eRender].
Proof. repeat split. Qed.

(* ================================================================= *)
(** ** What the later phases leave alone *)

Section Frame.

(** A relation between the world before and the world after a computation,
    kept by every step that only logs a call, prints a line or writes the
    route target. *)
Variable R : World -> World -> Prop.
Hypothesis R_refl : forall w, R w w.
Hypothesis R_trans : forall w1 w2 w3, R w1 w2 -> R w2 w3 -> R w1 w3.
Hypothesis R_log : forall evs w, R w (log_events evs w).
Hypothesis R_print : forall line w, R w (write_line line w).
Hypothesis R_route : forall s v w, R w (write_prop s _listen_playback_property_key v w).

Lemma keeps_ret {A} (a : A) : keeps R (ret a).
Proof. intros w. apply R_refl. Qed.

Lemma keeps_raise {A} (e : exn) : keeps R (@raise A e).
Proof. intros w. apply R_refl. Qed.

Lemma keeps_bind {A B} (c : M A) (k : A -> M B) :
  keeps R c -> (forall a, keeps R (k a)) -> keeps R (bind c k).
Proof.
  intros Hc Hk w. unfold after, bind.
  specialize (Hc w). unfold after in Hc.
  destruct (c w) as [[a|e] w1]; simpl in *; [|exact Hc].
  eapply R_trans; [exact Hc|apply Hk].
Qed.

Lemma keeps_try_except {A} (c : M A) (h : exn -> M A) :
  keeps R c -> (forall e, keeps R (h e)) -> keeps R (try_except c h).
Proof.
  intros Hc Hh w. unfold after, try_except.
  specialize (Hc w). unfold after in Hc.
  destruct (c w) as [[a|e] w1]; simpl in *; [exact Hc|].
  eapply R_trans; [exact Hc|apply Hh].
Qed.

Lemma keeps_com_call {A} (ev : Event) (answer : World -> com A) :
  keeps R (com_call ev answer).
Proof.
  intros w. unfold after, com_call, log_event.
  destruct (answer w); simpl; apply R_log.
Qed.

Lemma keeps_print (line : string) : keeps R (print line).
Proof. intros w. apply R_print. Qed.

Lemma keeps_get_active_devices (direction : string) : keeps R (get_active_devices direction).
Proof.
  unfold get_active_devices.
  destruct (negb _); [apply keeps_raise|].
  apply keeps_bind; [apply keeps_com_call|]. intros [|]; simpl; [|apply keeps_raise].
  apply keeps_bind; [apply keeps_com_call|]. intros [items|];
    [apply keeps_ret|apply keeps_raise].
Qed.

Lemma keeps_find_device_guid_by_name (name : string) : keeps R (find_device_guid_by_name name).
Proof.
  unfold find_device_guid_by_name.
  apply keeps_bind; [apply keeps_get_active_devices|]. intros ins.
  apply keeps_bind; [apply keeps_get_active_devices|]. intros outs.
  destruct (first_named name (ins ++ outs)); [apply keeps_ret|apply keeps_raise].
Qed.

Lemma keeps_set_listen_playback_device store playback :
  keeps R (set_listen_playback_device store playback).
Proof.
  unfold set_listen_playback_device.
  apply keeps_bind.
  - destruct playback as [name|]; [|apply keeps_ret].
    apply keeps_bind; [apply keeps_find_device_guid_by_name|]. intros guid. apply keeps_ret.
  - intros v w. unfold after, SetValue, log_event.
    destruct (SetValue_result (os w) store _listen_playback_property_key v); simpl.
    + eapply R_trans; [apply R_log|apply R_route].
    + apply R_log.
Qed.

Lemma keeps_route_commit_report store enabled_to_set playback verbose :
  keeps R (route_commit_report store enabled_to_set playback verbose).
Proof.
  unfold route_commit_report.
  apply keeps_bind; [apply keeps_set_listen_playback_device|]. intros _.
  apply keeps_bind.
  - apply keeps_try_except; [apply keeps_com_call|]. intros e. apply keeps_ret.
  - intros _. destruct verbose; [|apply keeps_ret].
    apply keeps_bind; [apply keeps_print|]. intros _. apply keeps_print.
Qed.

End Frame.

Lemma route_commit_report_continues store enabled_to_set playback verbose (w : World) :
  continues store w (after (route_commit_report store enabled_to_set playback verbose) w).
Proof.
  apply (keeps_route_commit_report (continues store)); unfold continues.
  - intros w0. repeat split. exists []. now rewrite app_nil_r.
  - intros w1 w2 w3 (Ho1 & Hp1 & l1 & Ht1) (Ho2 & Hp2 & l2 & Ht2).
    split; [congruence|]. split; [congruence|].
    exists (l1 ++ l2). now rewrite Ht2, Ht1, app_assoc.
  - intros evs w0. repeat split. now exists evs.
  - intros line w0. repeat split. exists []. simpl. now rewrite app_nil_r.
  - intros s v w0. split; [reflexivity|]. split.
    + simpl. unfold PROPERTYKEY_eqb. simpl. now rewrite andb_false_r.
    + exists []. simpl. now rewrite app_nil_r.
Qed.

Lemma apply_listen_settings_flag_written mic enabled playback verbose (w : World)
    store current :
  result (open_property_store_for_device mic) w = Return store ->
  result (get_listen_enabled store) w = Return current ->
  SetValue_result (os w) store _listen_checkbox_property_key
    (enabled_variant (enabled_target enabled current)) = ComOk tt ->
  run (apply_listen_settings mic enabled playback verbose) w =
  run (route_commit_report store (enabled_target enabled current) playback verbose)
    (write_prop store _listen_checkbox_property_key
       (enabled_variant (enabled_target enabled current))
       (log_events (flag_calls store (enabled_target enabled current)) w)).
Proof.
  intros Hopen Hcur Hset.
  rewrite (apply_listen_settings_reading _ _ _ _ _ _ Hopen). cbv zeta.
  apply get_listen_enabled_result in Hcur as <-.
  erewrite bind_Return
    by (rewrite set_listen_enabled_run; cbv zeta; simpl os; rewrite Hset; reflexivity).
  rewrite log_events_app, <- app_assoc. reflexivity.
Qed.

Lemma apply_listen_settings_flag_refused mic enabled playback verbose (w : World)
    store current h t :
  result (open_property_store_for_device mic) w = Return store ->
  result (get_listen_enabled store) w = Return current ->
  SetValue_result (os w) store _listen_checkbox_property_key
    (enabled_variant (enabled_target enabled current)) = ComFail h t ->
  run (apply_listen_settings mic enabled playback verbose) w =
  (Raise (COMError h t), log_events (flag_calls store (enabled_target enabled current)) w).
Proof.
  intros Hopen Hcur Hset.
  rewrite (apply_listen_settings_reading _ _ _ _ _ _ Hopen). cbv zeta.
  apply get_listen_enabled_result in Hcur as <-.
  erewrite bind_Raise; [reflexivity|].
  rewrite set_listen_enabled_run; cbv zeta; simpl os; rewrite Hset.
  rewrite log_events_app, <- app_assoc. reflexivity.
Qed.

Lemma open_property_store_for_device_after mic (w : World) store :
  result (open_property_store_for_device mic) w = Return store ->
  after (open_property_store_for_device mic) w = log_events (open_calls store) w.
Proof.
  intros Hopen.
  destruct (open_property_store_for_device_inv _ _ _ Hopen) as (i & o & Hi & Ho & Hn & Hs).
  pose proof (open_property_store_for_device_run _ _ _ _ _ Hi Ho Hn Hs) as Hrun.
  unfold run in Hrun. unfold after. now rewrite Hrun.
Qed.

(* ================================================================= *)
(** ** Apply: the target of the enabled flag *)

(** C3. A Toggle request ([enabled] is [None]) on an opened store reads the
    flag and then writes [True] when the read gave [None], and the negation
    of the value read otherwise; when the OS accepts that write, the flag
    holds the written value when the operation ends. *)
Theorem toggle_target (mic : string) (playback : option string) (verbose : bool)
    (w : World) store current :
  result (open_property_store_for_device mic) w = Return store ->
  result (get_listen_enabled store) w = Return current ->
  let target := match current with None => true | Some prior => negb prior end in
  let w' := after (apply_listen_settings mic None playback verbose) w in
  (exists later,
     trace w' =
     trace (after (open_property_store_for_device mic) w) ++
     [CallGetValue store _listen_checkbox_property_key;
      CallSetValue store _listen_checkbox_property_key (enabled_variant target)] ++ later) /\
  (SetValue_result (os w) store _listen_checkbox_property_key (enabled_variant target) =
     ComOk tt ->
   props w' store _listen_checkbox_property_key = ComOk (enabled_variant target)).
Proof.
  intros Hopen Hcur target w'.
  change target with (enabled_target None current) in *.
  rewrite (open_property_store_for_device_after _ _ _ Hopen).
  destruct (SetValue_result (os w) store _listen_checkbox_property_key
              (enabled_variant (enabled_target None current))) as [[]|h t] eqn:Hset.
  - pose proof (apply_listen_settings_flag_written mic None playback verbose w store current
                  Hopen Hcur Hset) as Hrun.
    assert (Hw' : w' = after (route_commit_report store (enabled_target None current)
                                playback verbose)
                         (write_prop store _listen_checkbox_property_key
                            (enabled_variant (enabled_target None current))
                            (log_events (flag_calls store (enabled_target None current)) w)))
      by (unfold w', after; unfold run in Hrun; now rewrite Hrun).
    destruct (route_commit_report_continues store (enabled_target None current) playback verbose
                (write_prop store _listen_checkbox_property_key
                   (enabled_variant (enabled_target None current))
                   (log_events (flag_calls store (enabled_target None current)) w)))
      as (_ & Hflag & later & Htrace).
    rewrite <- Hw' in Hflag, Htrace. split.
    + exists later. rewrite Htrace. simpl. unfold flag_calls.
      now rewrite <- !app_assoc.
    + intros _. rewrite Hflag. apply write_prop_same.
  - pose proof (apply_listen_settings_flag_refused mic None playback verbose w store current
                  h t Hopen Hcur Hset) as Hrun.
    split; [|discriminate].
    exists []. unfold w', after. unfold run in Hrun. rewrite Hrun. simpl.
    unfold flag_calls. now rewrite <- !app_assoc.
Qed.

Lemma toggle_target_witness :
  let never_set := Demo.boot Demo.healthy Demo.untouched in
  result (get_listen_enabled demo_mic_store) never_set = Return None /\
  props (after (apply_listen_settings "Microphone (USB Audio)" None None false) never_set)
    demo_mic_store _listen_checkbox_property_key = ComOk (enabled_variant true) /\
  props (after (apply_listen_settings "Microphone (USB Audio)" None None false) demo_world)
    demo_mic_store _listen_checkbox_property_key = ComOk (enabled_variant (negb false)).
Proof.
  split; [reflexivity|]. split.
  - apply (proj2 (toggle_target "Microphone (USB Audio)" None false
                    (Demo.boot Demo.healthy Demo.untouched) demo_mic_store None
                    eq_refl eq_refl)).
    reflexivity.
  - apply (proj2 (toggle_target "Microphone (USB Audio)" None false demo_world
                    demo_mic_store (Some false) eq_refl eq_refl)).
    reflexivity.
Defined.

Lemma open_property_store_for_device_same_os mic (w w' : World) store :
  os w' = os w ->
  result (open_property_store_for_device mic) w = Return store ->
  result (open_property_store_for_device mic) w' = Return store.
Proof.
  intros Hos Hopen.
  destruct (open_property_store_for_device_inv _ _ _ Hopen) as (i & o & Hi & Ho & Hn & Hs).
  rewrite <- Hos in Hi, Ho, Hs.
  pose proof (open_property_store_for_device_run _ _ _ _ _ Hi Ho Hn Hs) as Hrun.
  unfold run in Hrun. unfold result. now rewrite Hrun.
Qed.

(** One apply whose flag write the OS accepts: same OS afterwards, and the
    flag reads back as the target. *)
Lemma apply_listen_settings_flag_after mic enabled playback verbose (w : World)
    store current :
  result (open_property_store_for_device mic) w = Return store ->
  result (get_listen_enabled store) w = Return current ->
  SetValue_result (os w) store _listen_checkbox_property_key
    (enabled_variant (enabled_target enabled current)) = ComOk tt ->
  let w' := after (apply_listen_settings mic enabled playback verbose) w in
  os w' = os w /\
  result (get_listen_enabled store) w' = Return (Some (enabled_target enabled current)).
Proof.
  intros Hopen Hcur Hset w'.
  pose proof (apply_listen_settings_flag_written mic enabled playback verbose w store current
                Hopen Hcur Hset) as Hrun.
  destruct (route_commit_report_continues store (enabled_target enabled current) playback verbose
              (write_prop store _listen_checkbox_property_key
                 (enabled_variant (enabled_target enabled current))
                 (log_events (flag_calls store (enabled_target enabled current)) w)))
    as (Hos & Hflag & _).
  unfold run in Hrun. unfold after in Hos, Hflag. rewrite <- Hrun in Hos, Hflag.
  fold (after (apply_listen_settings mic enabled playback verbose) w) in Hos, Hflag.
  fold w' in Hos, Hflag.
  split; [exact Hos|].
  change (fst (run (get_listen_enabled store) w') =
          Return (Some (enabled_target enabled current))).
  rewrite get_listen_enabled_run, Hflag, write_prop_same. simpl.
  now destruct (enabled_target enabled current).
Qed.

(** C4. On a device whose flag reads as [prior] and whose flag writes the
    OS accepts, one Toggle leaves the flag reading as the negation of
    [prior], and a second Toggle, run in the world the first one left,
    leaves it reading as [prior] again. *)
Theorem toggle_twice_restores (mic : string) (playback1 playback2 : option string)
    (verbose1 verbose2 : bool) (w : World) store prior :
  result (open_property_store_for_device mic) w = Return store ->
  result (get_listen_enabled store) w = Return (Some prior) ->
  (forall enabled,
     SetValue_result (os w) store _listen_checkbox_property_key (enabled_variant enabled) =
     ComOk tt) ->
  let w1 := after (apply_listen_settings mic None playback1 verbose1) w in
  let w2 := after (apply_listen_settings mic None playback2 verbose2) w1 in
  result (get_listen_enabled store) w1 = Return (Some (negb prior)) /\
  result (get_listen_enabled store) w2 = Return (Some prior).
Proof.
  intros Hopen Hcur Hset w1 w2.
  destruct (apply_listen_settings_flag_after mic None playback1 verbose1 w store (Some prior)
              Hopen Hcur (Hset _)) as [Hos1 Hread1].
  fold w1 in Hos1, Hread1. simpl in Hread1.
  split; [exact Hread1|].
  assert (Hopen1 : result (open_property_store_for_device mic) w1 = Return store)
    by (apply (open_property_store_for_device_same_os mic w w1 store Hos1 Hopen)).
  assert (Hset1 : SetValue_result (os w1) store _listen_checkbox_property_key
                    (enabled_variant (enabled_target None (Some (negb prior)))) = ComOk tt)
    by (rewrite Hos1; apply Hset).
  destruct (apply_listen_settings_flag_after mic None playback2 verbose2 w1 store
              (Some (negb prior)) Hopen1 Hread1 Hset1) as [_ Hread2].
  fold w2 in Hread2. simpl in Hread2. now rewrite negb_involutive in Hread2.
Qed.

Lemma toggle_twice_restores_witness :
  let toggle := apply_listen_settings "Microphone (USB Audio)" None None true in
  result toggle demo_world = Return tt /\
  result toggle (after toggle demo_world) = Return tt /\
  result (get_listen_enabled demo_mic_store) demo_world = Return (Some false) /\
  result (get_listen_enabled demo_mic_store) (after toggle demo_world) = Return (Some true) /\
  result (get_listen_enabled demo_mic_store) (after toggle (after toggle demo_world)) =
    Return (Some false).
Proof.
  split; [reflexivity|]. split; [reflexivity|]. split; [reflexivity|].
  exact (toggle_twice_restores "Microphone (USB Audio)" None None true true demo_world
           demo_mic_store false eq_refl eq_refl (fun _ => eq_refl)).
Defined.

(* ================================================================= *)
(** ** Apply: a failed write of the route target *)

(** C2 (amended). When the OS accepts the write of the enabled flag and
    refuses the write of the route target, [apply_listen_settings] raises
    the [COMError] of the refused call, the exception any failed COM call
    raises; the flag holds the new value, the route target its old one, and
    nothing has been printed.  The [try] block of [main] that runs the
    operation then ends with exit code 2, after the one line of an
    unexpected error when [verbose]. *)
Theorem apply_route_write_fails (mic : string) (enabled : option bool)
    (playback : option string) (verbose : bool) (w : World) store current v h t :
  result (open_property_store_for_device mic) w = Return store ->
  result (get_listen_enabled store) w = Return current ->
  SetValue_result (os w) store _listen_checkbox_property_key
    (enabled_variant (enabled_target enabled current)) = ComOk tt ->
  route_value w playback v ->
  SetValue_result (os w) store _listen_playback_property_key v = ComFail h t ->
  let w' := after (apply_listen_settings mic enabled playback verbose) w in
  result (apply_listen_settings mic enabled playback verbose) w = Raise (COMError h t) /\
  props w' store _listen_checkbox_property_key =
    ComOk (enabled_variant (enabled_target enabled current)) /\
  props w' store _listen_playback_property_key =
    props w store _listen_playback_property_key /\
  stdout w' = stdout w /\
  (forall on off : bool,
     (if on then Some true else if off then Some false else None) = enabled ->
     result (main_apply on off mic playback verbose) w = Return 2%Z /\
     exists text,
       stdout (after (main_apply on off mic playback verbose) w) =
       stdout w ++
       (if verbose then [("[micmon] unexpected error: " ++ text)%string] else [])).
Proof.
  intros Hopen Hcur Hset Hroute Hfail w'.
  pose proof (apply_listen_settings_flag_written mic enabled playback verbose w store current
                Hopen Hcur Hset) as Hrun.
  unfold route_commit_report in Hrun.
  match type of Hrun with
  | _ = run _ ?w2 =>
      pose proof (set_listen_playback_device_run store playback w2 w v eq_refl Hroute) as Hw
  end.
  cbv zeta in Hw. simpl os in Hw. rewrite Hfail in Hw.
  rewrite (bind_Raise _ _ _ _ _ Hw) in Hrun.
  unfold run in Hrun. unfold w', result, after. rewrite Hrun. simpl fst. simpl snd.
  split; [reflexivity|]. split; [|split; [|split; [reflexivity|]]].
  - simpl. unfold PROPERTYKEY_eqb. simpl. now rewrite !String.eqb_refl.
  - simpl. unfold PROPERTYKEY_eqb. simpl. now rewrite andb_false_r.
  - intros on off Henabled. unfold main_apply. rewrite Henabled, Hrun.
    split; [reflexivity|].
    exists (exn_str (COMError h t)).
    destruct verbose; simpl; [reflexivity|now rewrite app_nil_r].
Qed.

Lemma apply_route_write_fails_witness :
  let turn_on := apply_listen_settings "Microphone (USB Audio)" (Some true) None true in
  result turn_on route_denied_world =
    Raise (COMError Demo.E_ACCESSDENIED "Access is denied.") /\
  props (after turn_on route_denied_world) demo_mic_store _listen_checkbox_property_key =
    ComOk (enabled_variant true) /\
  props (after turn_on route_denied_world) demo_mic_store _listen_playback_property_key =
    ComOk (playback_variant "{0.0.0.00000000}.{spk}") /\
  result (main_apply true false "Microphone (USB Audio)" None true) route_denied_world =
    Return 2%Z.
Proof.
  pose proof (apply_route_write_fails "Microphone (USB Audio)" (Some true) None true
                route_denied_world demo_mic_store (Some false) (PROPVARIANT_new VT_EMPTY)
                Demo.E_ACCESSDENIED "Access is denied."
                eq_refl eq_refl eq_refl eq_refl eq_refl)
    as (Hres & Hflag & Hroute & _ & Hmain).
  split; [exact Hres|]. split; [exact Hflag|]. split; [exact Hroute|].
  exact (proj1 (Hmain true false eq_refl)).
Defined.

(** C2, as stated, fails: the error of a run that wrote the flag and then
    failed on the route target is the error of a run that failed on the
    flag and wrote nothing, so no test on the error tells a partial write
    from another failed write; the [try] block of [main] ends both with
    exit code 2 and the same output. *)
Lemma partial_write_is_not_distinct :
  let turn_on := apply_listen_settings "Microphone (USB Audio)" (Some true) None true in
  let main_on := main_apply true false "Microphone (USB Audio)" None true in
  props (after turn_on route_denied_world) demo_mic_store _listen_checkbox_property_key =
    ComOk (enabled_variant true) /\
  props (after turn_on flag_denied_world) demo_mic_store _listen_checkbox_property_key =
    ComOk (enabled_variant false) /\
  result main_on route_denied_world = Return 2%Z /\
  result main_on flag_denied_world = Return 2%Z /\
  stdout (after main_on route_denied_world) = stdout (after main_on flag_denied_world) /\
  ~ exists partial_write : exn -> bool,
      (forall e, result turn_on route_denied_world = Raise e -> partial_write e = true) /\
      (forall e, result turn_on flag_denied_world = Raise e -> partial_write e = false).
Proof.
  repeat split.
  intros (partial_write & Hroute & Hflag).
  specialize (Hroute _ eq_refl). specialize (Hflag _ eq_refl). congruence.
Qed.

(* ================================================================= *)
(** ** Apply: commit *)

(** C7 (amended). When resolution, the opening of the store and both
    writes succeed, [apply_listen_settings] returns normally whatever
    [Commit] answers, a failure included: both properties hold the written
    values, [Commit] is the last call made, and the output is exactly the
    two state lines when [verbose] and nothing otherwise.  No line about the
    commit is ever printed. *)
Theorem commit_failure_is_swallowed (mic : string) (enabled : option bool)
    (playback : option string) (verbose : bool) (w : World) store current v :
  result (open_property_store_for_device mic) w = Return store ->
  result (get_listen_enabled store) w = Return current ->
  SetValue_result (os w) store _listen_checkbox_property_key
    (enabled_variant (enabled_target enabled current)) = ComOk tt ->
  route_value w playback v ->
  SetValue_result (os w) store _listen_playback_property_key v = ComOk tt ->
  let w' := after (apply_listen_settings mic enabled playback verbose) w in
  result (apply_listen_settings mic enabled playback verbose) w = Return tt /\
  props w' store _listen_checkbox_property_key =
    ComOk (enabled_variant (enabled_target enabled current)) /\
  props w' store _listen_playback_property_key = ComOk v /\
  (exists earlier, trace w' = trace w ++ earlier ++ [CallCommit store]) /\
  stdout w' =
    stdout w ++
    (if verbose then
       [("[micmon] Listen to this device: " ++
         (if enabled_target enabled current then "ON" else "OFF"))%string;
        ("[micmon] Playback through this device: " ++
         py_or playback "Default playback device")%string]
     else []).
Proof.
  intros Hopen Hcur Hset Hroute Hok w'.
  pose proof (apply_listen_settings_flag_written mic enabled playback verbose w store current
                Hopen Hcur Hset) as Hrun.
  unfold route_commit_report in Hrun.
  match type of Hrun with
  | _ = run _ ?w2 =>
      pose proof (set_listen_playback_device_run store playback w2 w v eq_refl Hroute) as Hw
  end.
  cbv zeta in Hw. simpl os in Hw. rewrite Hok in Hw.
  rewrite (bind_Return _ _ _ _ _ Hw) in Hrun.
  rewrite commit_and_report_run in Hrun.
  unfold run in Hrun. unfold w', result, after. rewrite Hrun. simpl fst. simpl snd.
  split; [reflexivity|]. split; [|split; [|split]].
  - simpl. unfold PROPERTYKEY_eqb. simpl. now rewrite andb_false_r, !String.eqb_refl.
  - simpl. unfold PROPERTYKEY_eqb. simpl. now rewrite !String.eqb_refl.
  - simpl.
    exists (flag_calls store (enabled_target enabled current) ++
            route_calls playback ++ [CallSetValue store _listen_playback_property_key v]).
    now rewrite <- !app_assoc.
  - reflexivity.
Qed.

Lemma commit_failure_is_swallowed_witness :
  let turn_on :=
    apply_listen_settings "Microphone (USB Audio)" (Some true) (Some "Speakers (Realtek)") true in
  Commit_result (os commit_fails_world) demo_mic_store =
    ComFail (-2147467259)%Z "Unspecified error" /\
  result turn_on commit_fails_world = Return tt /\
  stdout (after turn_on commit_fails_world) =
    ["[micmon] Listen to this device: ON";
     "[micmon] Playback through this device: Speakers (Realtek)"].
Proof.
  split; [reflexivity|].
  pose proof (commit_failure_is_swallowed "Microphone (USB Audio)" (Some true)
                (Some "Speakers (Realtek)") true commit_fails_world demo_mic_store
                (Some false) (playback_variant "{0.0.0.00000000}.{spk}")
                eq_refl eq_refl eq_refl (ex_intro _ _ (conj eq_refl eq_refl)) eq_refl)
    as (Hres & _ & _ & _ & Hout).
  split; [exact Hres|exact Hout].
Defined.

(** C7, as stated, fails in its last part: a run whose commit fails ends
    with the result and the output of the run whose commit succeeds, so
    nothing the caller sees reports the failure, as a warning or otherwise;
    [main] exits with code 0 and the same two lines in both. *)
Lemma commit_failure_is_not_reported :
  let turn_on :=
    apply_listen_settings "Microphone (USB Audio)" (Some true) (Some "Speakers (Realtek)") true in
  let main_on :=
    main_apply true false "Microphone (USB Audio)" (Some "Speakers (Realtek)") true in
  Commit_result (os commit_fails_world) demo_mic_store =
    ComFail (-2147467259)%Z "Unspecified error" /\
  In (CallCommit demo_mic_store) (trace (after turn_on commit_fails_world)) /\
  result main_on commit_fails_world = Return 0%Z /\
  stdout (after main_on commit_fails_world) =
    ["[micmon] Listen to this device: ON";
     "[micmon] Playback through this device: Speakers (Realtek)"] /\
  ~ exists warned : Outcome unit * list string -> bool,
      warned (result turn_on commit_fails_world, stdout (after turn_on commit_fails_world)) =
        true /\
      warned (result turn_on demo_world, stdout (after turn_on demo_world)) = false.
Proof.
  split; [reflexivity|]. split; [vm_compute; tauto|].
  split; [reflexivity|]. split; [reflexivity|].
  intros (warned & Hfail & Hok).
  exact (Bool.diff_true_false (eq_trans (eq_sym Hfail) Hok)).
Qed.

(* ================================================================= *)
(** ** More on enumeration and resolution *)

Lemma log_events_nil (w : World) : log_events [] w = w.
Proof. destruct w; unfold log_events; simpl. now rewrite app_nil_r. Qed.

Lemma logged_refl (allowed : Event -> bool) (w : World) : logged allowed w w.
Proof. exists []. now rewrite log_events_nil. Qed.

Lemma logged_trans (allowed : Event -> bool) (w1 w2 w3 : World) :
  logged allowed w1 w2 -> logged allowed w2 w3 -> logged allowed w1 w3.
Proof.
  intros (c1 & -> & H1) (c2 & -> & H2). exists (c1 ++ c2).
  now rewrite log_events_app, forallb_app, H1, H2.
Qed.

Lemma keeps_logged_com_call {A} (allowed : Event -> bool) (ev : Event)
    (answer : World -> com A) :
  allowed ev = true -> keeps (logged allowed) (com_call ev answer).
Proof.
  intros Hev w. unfold after, com_call, log_event.
  destruct (answer w); simpl; exists [ev]; simpl; now rewrite Hev.
Qed.

Lemma keeps_logged_get_active_devices (direction : string) :
  keeps (logged is_enumeration_call) (get_active_devices direction).
Proof.
  unfold get_active_devices.
  destruct (negb _); [apply keeps_raise, logged_refl|].
  apply keeps_bind; [apply logged_trans|now apply keeps_logged_com_call|].
  intros [|]; simpl; [|apply keeps_raise, logged_refl].
  apply keeps_bind; [apply logged_trans|now apply keeps_logged_com_call|].
  intros [items|]; [apply keeps_ret|apply keeps_raise]; apply logged_refl.
Qed.

Lemma ghost_test (device : AudioDevice.t) :
  contains ": None" (AudioDevice.str device) =
  match AudioDevice.FriendlyName device with
  | None => true
  | Some n => String.prefix "None" n || contains ": None" n
  end.
Proof. unfold AudioDevice.str. destruct (AudioDevice.FriendlyName device); reflexivity. Qed.

(** X1. The descriptors [get_active_devices] returns are exactly those of
    the items of the collection that are present, have a friendly name, and
    whose name neither starts with "None" nor contains ": None": the ghost
    test on ["AudioDevice: " + name] also drops real devices so named. *)
Theorem listed_devices_are_the_named_ones (dir : string) (w : World) devs items :
  result (get_active_devices dir) w = Return devs ->
  EnumAudioEndpoints_result (os w) (e_dataflow_of dir) = ComOk (Some items) ->
  forall d,
    In d devs <->
    exists device n,
      In (Some device) items /\
      AudioDevice.FriendlyName device = Some n /\
      String.prefix "None" n = false /\ contains ": None" n = false /\
      d = {| id := AudioDevice.id device; friendly_name := Some n; direction := dir |}.
Proof.
  intros Hres Hitems.
  apply get_active_devices_inv in Hres as [_ [_ [items' [Hitems' ->]]]].
  rewrite Hitems in Hitems'. injection Hitems' as <-. clear Hitems.
  intros d. induction items as [|[device|] items IH]; cbn [collect_devices].
  - split; [intros []|intros (device & n & [] & _)].
  - rewrite ghost_test.
    destruct (AudioDevice.FriendlyName device) as [n|] eqn:Hn.
    + destruct (String.prefix "None" n || contains ": None" n) eqn:Hghost.
      * rewrite IH. split.
        -- intros (dv & m & Hin & H). exists dv, m. split; [now right|exact H].
        -- intros (dv & m & [Heq|Hin] & Hm & Hp & Hc & Hd).
           ++ injection Heq as <-. rewrite Hn in Hm. injection Hm as <-.
              rewrite Hp, Hc in Hghost. discriminate.
           ++ exists dv, m. tauto.
      * apply orb_false_iff in Hghost as [Hp Hc]. split.
        -- intros [<-|Hin].
           ++ exists device, n. repeat split; try assumption; try reflexivity. now left.
           ++ apply IH in Hin as (dv & m & Hin & H). exists dv, m. split; [now right|exact H].
        -- intros (dv & m & [Heq|Hin] & Hm & Hp' & Hc' & Hd).
           ++ injection Heq as <-. rewrite Hn in Hm. injection Hm as <-. left. now subst d.
           ++ right. apply IH. exists dv, m. tauto.
    + rewrite IH. split.
      * intros (dv & m & Hin & H). exists dv, m. split; [now right|exact H].
      * intros (dv & m & [Heq|Hin] & Hm & H).
        -- injection Heq as <-. rewrite Hn in Hm. discriminate.
        -- exists dv, m. tauto.
  - rewrite IH. split.
    + intros (dv & m & Hin & H). exists dv, m. split; [now right|exact H].
    + intros (dv & m & [Heq|Hin] & H); [discriminate|]. exists dv, m. tauto.
Qed.

Lemma listed_devices_are_the_named_ones_witness :
  result (get_active_devices "input") awkward_world = Return [line_in] /\
  In line_in [line_in] /\ ~ In virtual_cable [line_in].
Proof.
  split; [reflexivity|].
  pose proof (listed_devices_are_the_named_ones "input" awkward_world [line_in] awkward_items
                eq_refl eq_refl) as H.
  split.
  - apply (proj2 (H line_in)).
    exists {| AudioDevice.id := "{0.0.1.00000000}.{line}";
              AudioDevice.FriendlyName := Some "Line In" |}, "Line In".
    repeat split. simpl. tauto.
  - intros Hin. apply (proj1 (H virtual_cable)) in Hin as (device & n & _ & _ & Hp & _ & Hd).
    injection Hd as _ Hn. subst n. discriminate Hp.
Defined.

Lemma get_active_devices_same_os (direction : string) (w w' : World) :
  os w' = os w ->
  result (get_active_devices direction) w' = result (get_active_devices direction) w.
Proof.
  intros Hos. unfold result, get_active_devices.
  destruct (negb _); [reflexivity|].
  unfold bind, CoCreateInstance, EnumAudioEndpoints, com_call. rewrite Hos.
  destruct (CoCreateInstance_result (os w)) as [[|]|]; simpl; try reflexivity.
  rewrite Hos.
  destruct (EnumAudioEndpoints_result (os w) _) as [[items|]|]; reflexivity.
Qed.

Lemma logged_same_os (allowed : Event -> bool) (w w' : World) :
  logged allowed w w' -> os w' = os w.
Proof. now intros (calls & -> & _). Qed.

(** X2. Both lists are built before the search starts: when the capture
    endpoints enumerate and the render enumeration raises, the resolver
    raises that error for every name, a name of a capture endpoint
    included. *)
Theorem resolution_needs_both_enumerations (name : string) (w : World) ins e :
  result (get_active_devices "input") w = Return ins ->
  result (get_active_devices "output") w = Raise e ->
  result (find_device_guid_by_name name) w = Raise e.
Proof.
  intros Hi Ho.
  pose proof (keeps_logged_get_active_devices "input" w) as Hlog.
  apply logged_same_os in Hlog.
  rewrite <- (get_active_devices_same_os "output" w _ Hlog) in Ho.
  unfold result, after in *. unfold find_device_guid_by_name, bind.
  destruct (get_active_devices "input" w) as [r1 w1]. simpl in Hi, Ho. subst r1.
  destruct (get_active_devices "output" w1) as [r2 w2]. simpl in Ho. now subst r2.
Qed.

Lemma resolution_needs_both_enumerations_witness :
  In (Some "Microphone (USB Audio)") (map friendly_name demo_inputs) /\
  result (find_device_guid_by_name "Microphone (USB Audio)") render_fails_world =
    Raise (COMError (-2147023728)%Z "Element not found.").
Proof.
  split; [simpl; tauto|].
  exact (resolution_needs_both_enumerations "Microphone (USB Audio)" render_fails_world
           demo_inputs (COMError (-2147023728)%Z "Element not found.") eq_refl eq_refl).
Defined.

Lemma keeps_logged_find_device_guid_by_name (name : string) :
  keeps (logged is_enumeration_call) (find_device_guid_by_name name).
Proof.
  unfold find_device_guid_by_name.
  apply keeps_bind; [apply logged_trans|apply keeps_logged_get_active_devices|]. intros ins.
  apply keeps_bind; [apply logged_trans|apply keeps_logged_get_active_devices|]. intros outs.
  destruct (first_named name (ins ++ outs)); [apply keeps_ret|apply keeps_raise];
    apply logged_refl.
Qed.

(* ================================================================= *)
(** ** Validation of a configured name *)

Lemma name_in_iff (name : string) (devs : list DeviceInfo) :
  name_in name devs = true <-> In (Some name) (map friendly_name devs).
Proof.
  unfold name_in. rewrite existsb_exists, in_map_iff. split.
  - intros (d & Hin & Hd). exists d. split; [|exact Hin].
    destruct (friendly_name d) as [n|]; [|discriminate].
    apply String.eqb_eq in Hd. now subst n.
  - intros (d & Hd & Hin). exists d. split; [exact Hin|].
    rewrite Hd. apply String.eqb_refl.
Qed.

Lemma validate_device_name_run (name dir : string) (w : World) devs :
  result (get_active_devices dir) w = Return devs ->
  result (validate_device_name name dir) w =
  if name_in name devs then Return tt
  else Raise (ValueError (capitalize dir ++ " device not found: " ++ py_repr name ++
                          ". Run: python micmon.py --list-devices")%string).
Proof.
  unfold result, validate_device_name, bind.
  destruct (get_active_devices dir w) as [r w1]. simpl. intros ->.
  destruct (name_in name devs); reflexivity.
Qed.

(** X4. With the endpoints of [dir] enumerated as [devs], the validation
    returns when the name is among their friendly names, and otherwise
    raises the [ValueError] that names the direction, capitalised, and the
    quoted name. *)
Theorem validate_device_name_iff (name dir : string) (w : World) devs :
  result (get_active_devices dir) w = Return devs ->
  (In (Some name) (map friendly_name devs) ->
   result (validate_device_name name dir) w = Return tt) /\
  (~ In (Some name) (map friendly_name devs) ->
   result (validate_device_name name dir) w =
   Raise (ValueError ((if String.eqb dir "output" then "Output" else "Input") ++
                      " device not found: " ++ py_repr name ++
                      ". Run: python micmon.py --list-devices")%string)).
Proof.
  intros Hdevs. rewrite (validate_device_name_run name dir w devs Hdevs).
  apply get_active_devices_inv in Hdevs as [Hdir _].
  split; intros Hin.
  - apply name_in_iff in Hin. now rewrite Hin.
  - destruct (name_in name devs) eqn:Hn; [apply name_in_iff in Hn; contradiction|].
    destruct Hdir as [-> | ->]; reflexivity.
Qed.

Lemma validate_device_name_iff_witness :
  result (validate_device_name "Speakers (Realtek)" "output") demo_world = Return tt /\
  result (validate_device_name "Speakers (Realtek)" "input") demo_world =
    Raise (ValueError
      "Input device not found: 'Speakers (Realtek)'. Run: python micmon.py --list-devices").
Proof.
  split.
  - apply (proj1 (validate_device_name_iff "Speakers (Realtek)" "output" demo_world
                    demo_outputs eq_refl)).
    simpl. tauto.
  - apply (proj2 (validate_device_name_iff "Speakers (Realtek)" "input" demo_world
                    demo_inputs eq_refl)).
    simpl. intros [H|[H|[]]]; discriminate.
Defined.

(** X5. A name that passes the validation for a direction is a name the
    resolver finds, once both enumerations answer. *)
Theorem validated_name_resolves (name dir : string) (w : World) ins outs :
  result (validate_device_name name dir) w = Return tt ->
  result (get_active_devices "input") w = Return ins ->
  result (get_active_devices "output") w = Return outs ->
  exists guid, result (find_device_guid_by_name name) w = Return guid.
Proof.
  intros Hval Hi Ho.
  assert (Hin : In (Some name) (map friendly_name (ins ++ outs))).
  { unfold result, validate_device_name, bind in Hval.
    destruct (get_active_devices dir w) as [[devs|e] w1] eqn:Hrun; [|discriminate].
    assert (Hdevs : result (get_active_devices dir) w = Return devs)
      by (unfold result; now rewrite Hrun).
    destruct (name_in name devs) eqn:Hn; [|discriminate].
    apply name_in_iff in Hn.
    destruct (get_active_devices_inv _ _ _ Hdevs) as [[-> | ->] _];
      rewrite map_app, in_app_iff; [left|right]; congruence. }
  apply first_named_Some in Hin as [guid Hguid]. exists guid.
  apply get_active_devices_inv in Hi as [_ Hi].
  apply get_active_devices_inv in Ho as [_ Ho].
  pose proof (find_device_guid_by_name_run name w ins outs Hi Ho) as Hrun.
  unfold run in Hrun. unfold result. now rewrite Hrun, Hguid.
Qed.

Lemma validated_name_resolves_witness :
  exists guid,
    result (find_device_guid_by_name "Speakers (Realtek)") demo_world = Return guid.
Proof.
  exact (validated_name_resolves "Speakers (Realtek)" "output" demo_world
           demo_inputs demo_outputs eq_refl eq_refl eq_refl).
Defined.

(* ================================================================= *)
(** ** More on apply *)

Lemma enumerates_inj (o : OS) (direction : string) devs devs' :
  enumerates o direction devs -> enumerates o direction devs' -> devs = devs'.
Proof.
  intros [_ (items & He & ->)] [_ (items' & He' & ->)].
  rewrite He in He'. now injection He' as <-.
Qed.

Lemma first_named_app_l (name : string) (l1 l2 : list DeviceInfo) guid :
  first_named name l1 = Some guid -> first_named name (l1 ++ l2) = Some guid.
Proof.
  induction l1 as [|d l1 IH]; simpl; [discriminate|].
  destruct (friendly_name d) as [n|]; [|exact IH].
  destruct (String.eqb n name); [easy|exact IH].
Qed.

(** The whole of a run in which resolution, opening and both writes
    succeed. *)
Lemma apply_listen_settings_run_ok mic enabled playback verbose (w : World)
    store current v :
  result (open_property_store_for_device mic) w = Return store ->
  result (get_listen_enabled store) w = Return current ->
  SetValue_result (os w) store _listen_checkbox_property_key
    (enabled_variant (enabled_target enabled current)) = ComOk tt ->
  route_value w playback v ->
  SetValue_result (os w) store _listen_playback_property_key v = ComOk tt ->
  run (apply_listen_settings mic enabled playback verbose) w =
  (Return tt,
   print_lines
     (if verbose then report_lines (enabled_target enabled current) playback else [])
     (log_events [CallCommit store]
        (write_prop store _listen_playback_property_key v
           (log_events
              (route_calls playback ++ [CallSetValue store _listen_playback_property_key v])
              (write_prop store _listen_checkbox_property_key
                 (enabled_variant (enabled_target enabled current))
                 (log_events (flag_calls store (enabled_target enabled current)) w)))))).
Proof.
  intros Hopen Hcur Hset Hroute Hok.
  rewrite (apply_listen_settings_flag_written mic enabled playback verbose w store current
             Hopen Hcur Hset).
  unfold route_commit_report.
  match goal with
  | |- run _ ?w2 = _ =>
      pose proof (set_listen_playback_device_run store playback w2 w v eq_refl Hroute) as Hw
  end.
  cbv zeta in Hw. simpl os in Hw. rewrite Hok in Hw.
  rewrite (bind_Return _ _ _ _ _ Hw). apply commit_and_report_run.
Qed.

(** X6. The playback name is resolved like any name, recording endpoints
    first: when a recording endpoint has the name, the route target written
    is that endpoint's identifier, whether or not a playback endpoint has
    the name too. *)
Theorem playback_name_resolves_inputs_first (mic : string) (enabled : option bool)
    (name : string) (verbose : bool) (w : World) store current ins guid :
  result (open_property_store_for_device mic) w = Return store ->
  result (get_listen_enabled store) w = Return current ->
  SetValue_result (os w) store _listen_checkbox_property_key
    (enabled_variant (enabled_target enabled current)) = ComOk tt ->
  result (get_active_devices "input") w = Return ins ->
  first_named name ins = Some guid ->
  SetValue_result (os w) store _listen_playback_property_key (playback_variant guid) =
    ComOk tt ->
  let w' := after (apply_listen_settings mic enabled (Some name) verbose) w in
  result (apply_listen_settings mic enabled (Some name) verbose) w = Return tt /\
  props w' store _listen_playback_property_key = ComOk (playback_variant guid).
Proof.
  intros Hopen Hcur Hset Hins Hfirst Hok w'.
  destruct (open_property_store_for_device_inv _ _ _ Hopen) as (i & o & Hi & Ho & _ & _).
  apply get_active_devices_inv in Hins as [_ Hins].
  rewrite (enumerates_inj _ _ _ _ Hins Hi) in Hfirst.
  assert (Hroute : route_value w (Some name) (playback_variant guid)).
  { exists guid. split; [|reflexivity].
    pose proof (find_device_guid_by_name_run name w i o Hi Ho) as Hrun.
    unfold run in Hrun. unfold result.
    now rewrite Hrun, (first_named_app_l name i o guid Hfirst). }
  pose proof (apply_listen_settings_run_ok mic enabled (Some name) verbose w store current
                (playback_variant guid) Hopen Hcur Hset Hroute Hok) as Hrun.
  unfold run in Hrun. unfold w', result, after. rewrite Hrun. simpl fst. simpl snd.
  split; [reflexivity|].
  simpl. unfold PROPERTYKEY_eqb. simpl. now rewrite !String.eqb_refl.
Qed.

Lemma playback_name_resolves_inputs_first_witness :
  let run_it :=
    apply_listen_settings "Microphone (USB Audio)" (Some true) (Some "Headset (Bluetooth)") true in
  result (validate_device_name "Headset (Bluetooth)" "output") demo_world = Return tt /\
  result run_it demo_world = Return tt /\
  props (after run_it demo_world) demo_mic_store _listen_playback_property_key =
    ComOk (playback_variant "{0.0.1.00000000}.{hs-in}").
Proof.
  split; [reflexivity|].
  exact (playback_name_resolves_inputs_first "Microphone (USB Audio)" (Some true)
           "Headset (Bluetooth)" true demo_world demo_mic_store (Some false) demo_inputs
           "{0.0.1.00000000}.{hs-in}" eq_refl eq_refl eq_refl eq_refl eq_refl eq_refl).
Defined.

(** X7. Round trip of the enabled flag: once the OS accepts the write of
    [enabled], reading the flag gives [enabled] back. *)
Theorem set_then_get_listen_enabled (store : IPropertyStore) (enabled : bool) (w : World) :
  SetValue_result (os w) store _listen_checkbox_property_key (enabled_variant enabled) =
    ComOk tt ->
  result (set_listen_enabled store enabled) w = Return tt /\
  result (get_listen_enabled store) (after (set_listen_enabled store enabled) w) =
    Return (Some enabled).
Proof.
  intros Hset.
  pose proof (set_listen_enabled_run store enabled w) as Hrun.
  cbv zeta in Hrun. rewrite Hset in Hrun. unfold run in Hrun.
  unfold result at 1. unfold after. rewrite Hrun. simpl fst. simpl snd.
  split; [reflexivity|].
  change (fst (run (get_listen_enabled store)
                 (write_prop store _listen_checkbox_property_key (enabled_variant enabled)
                    (log_events [CallSetValue store _listen_checkbox_property_key
                                   (enabled_variant enabled)] w))) =
          Return (Some enabled)).
  rewrite get_listen_enabled_run, write_prop_same. simpl. now destruct enabled.
Qed.

Lemma set_then_get_listen_enabled_witness :
  result (get_listen_enabled demo_mic_store) demo_world = Return (Some false) /\
  result (get_listen_enabled demo_mic_store)
    (after (set_listen_enabled demo_mic_store true) demo_world) = Return (Some true).
Proof.
  split; [reflexivity|].
  exact (proj2 (set_then_get_listen_enabled demo_mic_store true demo_world eq_refl)).
Defined.

(** X8. An explicit On or Off does not depend on the prior value: with
    the store open and the flag write accepted, the flag reads as the
    requested value after the operation, also when it could not be read
    before and whatever the later steps do. *)
Theorem apply_explicit_state (mic : string) (requested : bool) (playback : option string)
    (verbose : bool) (w : World) store :
  result (open_property_store_for_device mic) w = Return store ->
  SetValue_result (os w) store _listen_checkbox_property_key (enabled_variant requested) =
    ComOk tt ->
  result (get_listen_enabled store)
    (after (apply_listen_settings mic (Some requested) playback verbose) w) =
  Return (Some requested).
Proof.
  intros Hopen Hset.
  assert (Hcur : result (get_listen_enabled store) w =
                 Return (decoded (props w store _listen_checkbox_property_key))).
  { change (fst (run (get_listen_enabled store) w) =
            Return (decoded (props w store _listen_checkbox_property_key))).
    now rewrite get_listen_enabled_run. }
  exact (proj2 (apply_listen_settings_flag_after mic (Some requested) playback verbose w
                  store _ Hopen Hcur Hset)).
Qed.

Lemma apply_explicit_state_witness :
  let never_set := Demo.boot Demo.healthy Demo.untouched in
  result (get_listen_enabled demo_mic_store) never_set = Return None /\
  result (get_listen_enabled demo_mic_store)
    (after (apply_listen_settings "Microphone (USB Audio)" (Some false)
              (Some "NonexistentSpeaker") true) never_set) = Return (Some false).
Proof.
  split; [reflexivity|].
  exact (apply_explicit_state "Microphone (USB Audio)" false (Some "NonexistentSpeaker") true
           (Demo.boot Demo.healthy Demo.untouched) demo_mic_store eq_refl eq_refl).
Defined.

(** X9. On, then Off, both with the default playback device: when the
    store opens and the OS accepts the writes, both operations return, and
    afterwards the flag reads as off and the route target is the empty
    value, whatever route was stored before. *)
Theorem on_then_off_with_default_playback (mic : string) (verbose1 verbose2 : bool)
    (w : World) store :
  result (open_property_store_for_device mic) w = Return store ->
  (forall enabled,
     SetValue_result (os w) store _listen_checkbox_property_key (enabled_variant enabled) =
     ComOk tt) ->
  SetValue_result (os w) store _listen_playback_property_key (PROPVARIANT_new VT_EMPTY) =
    ComOk tt ->
  let w1 := after (apply_listen_settings mic (Some true) None verbose1) w in
  let w2 := after (apply_listen_settings mic (Some false) None verbose2) w1 in
  result (apply_listen_settings mic (Some true) None verbose1) w = Return tt /\
  result (apply_listen_settings mic (Some false) None verbose2) w1 = Return tt /\
  result (get_listen_enabled store) w2 = Return (Some false) /\
  props w2 store _listen_playback_property_key = ComOk (PROPVARIANT_new VT_EMPTY).
Proof.
  intros Hopen Hset Hroute w1 w2.
  assert (Hcur : forall w0, result (get_listen_enabled store) w0 =
                 Return (decoded (props w0 store _listen_checkbox_property_key))).
  { intros w0.
    change (fst (run (get_listen_enabled store) w0) =
            Return (decoded (props w0 store _listen_checkbox_property_key))).
    now rewrite get_listen_enabled_run. }
  pose proof (apply_listen_settings_run_ok mic (Some true) None verbose1 w store _
                (PROPVARIANT_new VT_EMPTY) Hopen (Hcur w) (Hset _) eq_refl Hroute) as Hrun1.
  unfold run in Hrun1.
  assert (Hos : os w1 = os w) by (unfold w1, after; now rewrite Hrun1).
  assert (Hopen1 : result (open_property_store_for_device mic) w1 = Return store)
    by (apply (open_property_store_for_device_same_os mic w w1 store Hos Hopen)).
  assert (Hset1 : SetValue_result (os w1) store _listen_checkbox_property_key
                    (enabled_variant (enabled_target (Some false)
                       (decoded (props w1 store _listen_checkbox_property_key)))) = ComOk tt)
    by (rewrite Hos; apply Hset).
  assert (Hroute1 : SetValue_result (os w1) store _listen_playback_property_key
                      (PROPVARIANT_new VT_EMPTY) = ComOk tt)
    by (now rewrite Hos).
  pose proof (apply_listen_settings_run_ok mic (Some false) None verbose2 w1 store _
                (PROPVARIANT_new VT_EMPTY) Hopen1 (Hcur w1) Hset1 eq_refl Hroute1) as Hrun2.
  unfold run in Hrun2.
  split; [unfold result; now rewrite Hrun1|].
  split; [unfold result; now rewrite Hrun2|].
  split.
  - rewrite Hcur. unfold w2, after. rewrite Hrun2. simpl.
    unfold PROPERTYKEY_eqb. simpl. now rewrite andb_false_r, !String.eqb_refl.
  - unfold w2, after. rewrite Hrun2. simpl.
    unfold PROPERTYKEY_eqb. simpl. now rewrite !String.eqb_refl.
Qed.

Lemma on_then_off_with_default_playback_witness :
  let turn_on := apply_listen_settings "Microphone (USB Audio)" (Some true) None true in
  let turn_off := apply_listen_settings "Microphone (USB Audio)" (Some false) None true in
  props demo_world demo_mic_store _listen_playback_property_key =
    ComOk (playback_variant "{0.0.0.00000000}.{spk}") /\
  result (get_listen_enabled demo_mic_store) (after turn_off (after turn_on demo_world)) =
    Return (Some false) /\
  props (after turn_off (after turn_on demo_world)) demo_mic_store
    _listen_playback_property_key = ComOk (PROPVARIANT_new VT_EMPTY).
Proof.
  split; [reflexivity|].
  pose proof (on_then_off_with_default_playback "Microphone (USB Audio)" true true demo_world
                demo_mic_store eq_refl (fun _ => eq_refl) eq_refl) as (_ & _ & Hflag & Hroute).
  split; [exact Hflag|exact Hroute].
Defined.

(** X10. When the OS refuses the write of the enabled flag, the operation
    raises that [COMError] at once: the log ends with the refused call, so
    the playback name is never resolved; no property has changed and
    nothing is printed. *)
Theorem apply_flag_write_refused (mic : string) (enabled : option bool)
    (playback : option string) (verbose : bool) (w : World) store current h t :
  result (open_property_store_for_device mic) w = Return store ->
  result (get_listen_enabled store) w = Return current ->
  SetValue_result (os w) store _listen_checkbox_property_key
    (enabled_variant (enabled_target enabled current)) = ComFail h t ->
  let w' := after (apply_listen_settings mic enabled playback verbose) w in
  result (apply_listen_settings mic enabled playback verbose) w = Raise (COMError h t) /\
  props w' = props w /\
  stdout w' = stdout w /\
  trace w' =
    trace (after (open_property_store_for_device mic) w) ++
    [CallGetValue store _listen_checkbox_property_key;
     CallSetValue store _listen_checkbox_property_key
       (enabled_variant (enabled_target enabled current))].
Proof.
  intros Hopen Hcur Hset w'.
  pose proof (apply_listen_settings_flag_refused mic enabled playback verbose w store current
                h t Hopen Hcur Hset) as Hrun.
  unfold run in Hrun. unfold w', result, after at 1 2 3. rewrite Hrun.
  rewrite (open_property_store_for_device_after _ _ _ Hopen).
  repeat split. simpl. unfold flag_calls. now rewrite <- app_assoc.
Qed.

Lemma apply_flag_write_refused_witness :
  let toggle := apply_listen_settings "Microphone (USB Audio)" None (Some "NoSuchSpeaker") true in
  result toggle flag_denied_world = Raise (COMError Demo.E_ACCESSDENIED "Access is denied.") /\
  props (after toggle flag_denied_world) = props flag_denied_world /\
  stdout (after toggle flag_denied_world) = [].
Proof.
  pose proof (apply_flag_write_refused "Microphone (USB Audio)" None (Some "NoSuchSpeaker") true
                flag_denied_world demo_mic_store (Some false) Demo.E_ACCESSDENIED
                "Access is denied." eq_refl eq_refl eq_refl) as (Hres & Hprops & Hout & _).
  split; [exact Hres|]. split; [exact Hprops|exact Hout].
Defined.

(** X11. When the name resolves and [GetDevice] answers [None] for the
    identifier, the operation raises the [RuntimeError] that quotes the
    identifier; the calls made are the resolution, [GetDeviceEnumerator] and
    [GetDevice]: no store is opened, nothing is read, written or printed. *)
Theorem apply_device_not_opened (mic : string) (enabled : option bool)
    (playback : option string) (verbose : bool) (w : World) guid :
  result (find_device_guid_by_name mic) w = Return guid ->
  GetDeviceEnumerator_result (os w) = ComOk tt ->
  GetDevice_result (os w) guid = ComOk false ->
  run (apply_listen_settings mic enabled playback verbose) w =
  (Raise (RuntimeError ("Failed to open device for GUID " ++ guid)%string),
   log_events [CallCoCreateInstance; CallEnumAudioEndpoints eCapture;
               CallCoCreateInstance; CallEnumAudioEndpoints eRender;
               CallGetDeviceEnumerator; CallGetDevice guid] w).
Proof.
  intros Hfind Henum Hdev.
  destruct (find_device_guid_by_name_inv _ _ _ Hfind) as (ins & outs & Hi & Ho & Hn).
  unfold apply_listen_settings, open_property_store_for_device.
  erewrite bind_Raise; [reflexivity|].
  erewrite bind_Return by (rewrite (find_device_guid_by_name_run _ _ _ _ Hi Ho), Hn; reflexivity).
  unfold run, bind, GetDeviceEnumerator, GetDevice, com_call, log_event.
  simpl. rewrite Henum. simpl. rewrite Hdev. simpl. unfold raise.
  now rewrite !log_events_app.
Qed.

Lemma apply_device_not_opened_witness :
  let toggle := apply_listen_settings "Microphone (USB Audio)" None None true in
  result toggle device_gone_world =
    Raise (RuntimeError "Failed to open device for GUID {0.0.1.00000000}.{mic}") /\
  props (after toggle device_gone_world) = props device_gone_world.
Proof.
  pose proof (apply_device_not_opened "Microphone (USB Audio)" None None true
                device_gone_world demo_mic_store eq_refl eq_refl eq_refl) as H.
  unfold run in H. unfold result, after. rewrite H. split; reflexivity.
Defined.

(* ================================================================= *)
(** ** What apply leaves alone *)

Section FrameAt.

(** As in [Frame], for the steps that work on one store: [R] is kept by
    logging and by writes of the two listen keys of [store]. *)
Variable R : World -> World -> Prop.
Variable store : IPropertyStore.
Hypothesis R_refl : forall w, R w w.
Hypothesis R_trans : forall w1 w2 w3, R w1 w2 -> R w2 w3 -> R w1 w3.
Hypothesis R_log : forall evs w, R w (log_events evs w).
Hypothesis R_flag : forall v w, R w (write_prop store _listen_checkbox_property_key v w).
Hypothesis R_route : forall v w, R w (write_prop store _listen_playback_property_key v w).

Lemma keeps_open_property_store_for_device (name : string) :
  keeps R (open_property_store_for_device name).
Proof.
  unfold open_property_store_for_device.
  apply keeps_bind; [exact R_trans|now apply keeps_find_device_guid_by_name|]. intros guid.
  apply keeps_bind; [exact R_trans|now apply keeps_com_call|]. intros _.
  apply keeps_bind; [exact R_trans|now apply keeps_com_call|]. intros [|]; simpl.
  - unfold OpenPropertyStore.
    apply keeps_bind; [exact R_trans|now apply keeps_com_call|]. intros _.
    now apply keeps_ret.
  - now apply keeps_raise.
Qed.


Lemma keeps_set_listen_enabled (enabled : bool) : keeps R (set_listen_enabled store enabled).
Proof.
  intros w. unfold after, set_listen_enabled, SetValue, log_event.
  destruct (SetValue_result (os w) store _listen_checkbox_property_key
              (enabled_variant enabled)); simpl.
  - eapply R_trans; [apply R_log|apply R_flag].
  - apply R_log.
Qed.

Lemma keeps_set_listen_playback_device_at (playback : option string) :
  keeps R (set_listen_playback_device store playback).
Proof.
  unfold set_listen_playback_device.
  apply keeps_bind; [exact R_trans| |].
  - destruct playback as [name|]; [|now apply keeps_ret].
    apply keeps_bind; [exact R_trans|now apply keeps_find_device_guid_by_name|].
    intros guid. now apply keeps_ret.
  - intros v w. unfold after, SetValue, log_event.
    destruct (SetValue_result (os w) store _listen_playback_property_key v); simpl.
    + eapply R_trans; [apply R_log|apply R_route].
    + apply R_log.
Qed.

Lemma keeps_commit : keeps R (try_except (Commit store) (fun _ => ret tt)).
Proof.
  apply keeps_try_except; [exact R_trans|now apply keeps_com_call|].
  intros e. now apply keeps_ret.
Qed.

End FrameAt.








Lemma PROPERTYKEY_eqb_eq (k1 k2 : PROPERTYKEY) : PROPERTYKEY_eqb k1 k2 = true -> k1 = k2.
Proof.
  destruct k1, k2. unfold PROPERTYKEY_eqb; simpl.
  rewrite andb_true_iff, String.eqb_eq, Z.eqb_eq. now intros [-> ->].
Qed.

Lemma write_prop_elsewhere s k v s0 k0 (w : World) :
  s0 <> s \/ k0 <> k -> props (write_prop s k v w) s0 k0 = props w s0 k0.
Proof.
  intros Hne. unfold write_prop; simpl.
  destruct (String.eqb_spec s0 s) as [->|]; [|reflexivity]. simpl.
  destruct (PROPERTYKEY_eqb k0 k) eqn:Hk; [|reflexivity].
  apply PROPERTYKEY_eqb_eq in Hk. tauto.
Qed.

Ltac same_value_side :=
  first
    [ assumption
    | unfold same_value; intros; simpl;
      first [reflexivity | etransitivity; eassumption | congruence] ].

(** X13. The operation changes nothing but the two listen properties of
    the store it opened: the value of every other key, in whatever store,
    and every value of a store other than the one the microphone name
    resolves to and opens, are as they were, in failed runs too. *)
Theorem apply_touches_only_listen_keys (mic : string) (enabled : option bool)
    (playback : option string) (verbose : bool) (w : World) s k :
  (k <> _listen_checkbox_property_key /\ k <> _listen_playback_property_key) \/
  result (open_property_store_for_device mic) w <> Return s ->
  props (after (apply_listen_settings mic enabled playback verbose) w) s k = props w s k.
Proof.
  intros Hother.
  destruct (result (open_property_store_for_device mic) w) as [store|e] eqn:Hopen.
  - pose proof (apply_listen_settings_reading mic enabled playback verbose w store Hopen)
      as Hrun.
    cbv zeta in Hrun. unfold run in Hrun. unfold after. rewrite Hrun.
    match goal with
    | |- props (snd (?c ?w1)) s k = _ =>
        change (same_value s k w (after c w1));
        assert (Hkeeps : keeps (same_value s k) c)
    end.
    { assert (Hflag : forall v w0,
                same_value s k w0 (write_prop store _listen_checkbox_property_key v w0)).
      { intros v w0. apply write_prop_elsewhere.
        destruct Hother as [[Hk _]|Hs]; [now right|left; congruence]. }
      assert (Hroute : forall v w0,
                same_value s k w0 (write_prop store _listen_playback_property_key v w0)).
      { intros v w0. apply write_prop_elsewhere.
        destruct Hother as [[_ Hk]|Hs]; [now right|left; congruence]. }
      apply keeps_bind; [same_value_side|apply keeps_set_listen_enabled; same_value_side|].
      intros _.
      apply keeps_bind;
        [same_value_side|apply keeps_set_listen_playback_device_at; same_value_side|].
      intros _.
      apply keeps_bind; [same_value_side|apply keeps_commit; same_value_side|].
      intros _. destruct verbose; [|apply keeps_ret; same_value_side].
      apply keeps_bind; [same_value_side|apply keeps_print; same_value_side|].
      intros _. apply keeps_print; same_value_side. }
    unfold same_value in *. now rewrite Hkeeps.
  - assert (Hkeeps : keeps (same_value s k) (open_property_store_for_device mic))
      by (apply keeps_open_property_store_for_device; same_value_side).
    specialize (Hkeeps w). unfold same_value, after in Hkeeps.
    unfold result in Hopen. unfold after, apply_listen_settings, bind.
    destruct (open_property_store_for_device mic w) as [r w1]. simpl in *. now subst r.
Qed.

Lemma apply_touches_only_listen_keys_witness :
  let toggle := apply_listen_settings "Microphone (USB Audio)" None None true in
  let other_key := {| fmtid := LISTEN_SETTING_GUID; pid := 2 |} in
  props (after toggle demo_world) demo_mic_store other_key =
    props demo_world demo_mic_store other_key /\
  props (after toggle demo_world) "{0.0.0.00000000}.{spk}" _listen_checkbox_property_key =
    props demo_world "{0.0.0.00000000}.{spk}" _listen_checkbox_property_key.
Proof.
  split.
  - apply (apply_touches_only_listen_keys "Microphone (USB Audio)" None None true demo_world
             demo_mic_store {| fmtid := LISTEN_SETTING_GUID; pid := 2 |}).
    left. split; discriminate.
  - apply (apply_touches_only_listen_keys "Microphone (USB Audio)" None None true demo_world
             "{0.0.0.00000000}.{spk}" _listen_checkbox_property_key).
    right. intros H. vm_compute in H. discriminate H.
Defined.

(* ================================================================= *)
(** ** The command line *)











(** X17. [main] always ends with an exit code, 0, 1 or 2: no exception of
    the listing or of the operation escapes it; a listing never ends with
    2. *)
Theorem main_always_exits (args : Args.t) (cfg : Config) (w : World) :
  exists code,
    result (main_listing_and_toggle args cfg) w = Return code /\
    (code = 0 \/ code = 1 \/ code = 2)%Z /\
    (Args.list_devices args = true -> code <> 2%Z).
Proof.
  unfold main_listing_and_toggle, result.
  destruct (Args.list_devices args).
  - unfold try_except, bind.
    destruct (print_devices w) as [[[]|e] w1]; simpl.
    + exists 0%Z. repeat split; [now left|discriminate].
    + exists 1%Z. destruct (negb (Args.quiet args)); simpl;
        (repeat split; [right; now left|discriminate]).
  - destruct (negb (Args.on args || Args.off args || Args.toggle args)).
    + exists 1%Z. unfold bind. destruct (negb (Args.quiet args)); simpl;
        (repeat split; [right; now left|discriminate]).
    + destruct (if py_truthy (Args.microphone args) then Args.microphone args
                else cfg "microphone") as [[|c s]|].
      * exists 1%Z. unfold bind. destruct (negb (Args.quiet args)); simpl;
          (repeat split; [right; now left|discriminate]).
      * unfold main_apply.
        destruct (apply_listen_settings _ _ _ _ w) as [[[]|[msg|msg|h t]] w1]; simpl.
        -- exists 0%Z. repeat split; [now left|discriminate].
        -- exists 1%Z. repeat split; [right; now left|discriminate].
        -- exists 2%Z. repeat split; [right; now right|discriminate].
        -- exists 2%Z. repeat split; [right; now right|discriminate].
      * exists 1%Z. unfold bind. destruct (negb (Args.quiet args)); simpl;
          (repeat split; [right; now left|discriminate]).
Qed.

(* ================================================================= *)
(** ** The listing *)

Lemma print_each_run (devs : list DeviceInfo) (w : World) :
  run (print_each devs) w =
  (Return tt,
   print_lines (map (fun d => ("  - " ++ format_name (friendly_name d))%string) devs) w).
Proof.
  revert w. induction devs as [|d devs IH]; intros w; simpl.
  - unfold run, ret. now rewrite print_lines_nil.
  - erewrite bind_Return by reflexivity. rewrite IH.
    unfold print_lines, write_line. simpl. now rewrite <- app_assoc.
Qed.

Lemma print_list_run (devs : list DeviceInfo) (w : World) :
  run ((match devs with [] => print "  (none)" | _ => ret tt end) ;; print_each devs) w =
  (Return tt, print_lines (device_lines devs) w).
Proof.
  destruct devs as [|d devs].
  - reflexivity.
  - erewrite bind_Return by reflexivity. apply print_each_run.
Qed.

Lemma print_devices_body_run (ins outs : list DeviceInfo) (w : World) :
  run (print "Input devices (recording):" ;;
       (match ins with [] => print "  (none)" | _ => ret tt end) ;;
       print_each ins ;;
       print (String newline "Output devices (playback):") ;;
       (match outs with [] => print "  (none)" | _ => ret tt end) ;;
       print_each outs) w =
  (Return tt,
   print_lines
     (["Input devices (recording):"] ++ device_lines ins ++
      [String newline "Output devices (playback):"] ++ device_lines outs) w).
Proof.
  erewrite bind_Return by reflexivity.
  change (write_line "Input devices (recording):" w)
    with (print_lines ["Input devices (recording):"] w).
  destruct ins as [|d ins].
  - erewrite bind_Return by reflexivity.
    erewrite bind_Return by reflexivity.
    erewrite bind_Return by reflexivity.
    rewrite print_list_run.
    unfold write_line, print_lines. simpl. now rewrite <- !app_assoc.
  - erewrite bind_Return by reflexivity.
    erewrite bind_Return by apply print_each_run.
    erewrite bind_Return by reflexivity.
    rewrite print_list_run.
    unfold write_line, print_lines. simpl.
    now rewrite <- !app_assoc.
Qed.

(** X18. With the two enumerations answering [ins] and [outs], the listing
    returns having printed the recording header, one line per recording
    endpoint in enumeration order, the playback header, and one line per
    playback endpoint; an empty list shows as the single line "  (none)". *)
Theorem print_devices_lists_every_endpoint (w : World) ins outs :
  result (get_active_devices "input") w = Return ins ->
  result (get_active_devices "output") w = Return outs ->
  result print_devices w = Return tt /\
  stdout (after print_devices w) =
    stdout w ++
    ["Input devices (recording):"] ++
    (match ins with
     | [] => ["  (none)"]
     | _ => map (fun d => ("  - " ++ format_name (friendly_name d))%string) ins
     end) ++
    [String newline "Output devices (playback):"] ++
    (match outs with
     | [] => ["  (none)"]
     | _ => map (fun d => ("  - " ++ format_name (friendly_name d))%string) outs
     end).
Proof.
  intros Hi Ho.
  apply get_active_devices_inv in Hi as [_ Hi].
  apply get_active_devices_inv in Ho as [_ Ho].
  assert (Hrun : run print_devices w =
            (Return tt,
             print_lines
               (["Input devices (recording):"] ++ device_lines ins ++
                [String newline "Output devices (playback):"] ++ device_lines outs)
               (log_events resolve_calls w))).
  { unfold print_devices.
    rewrite (bind_Return _ _ w ins _
               (get_active_devices_run "input" w ins (or_introl eq_refl) Hi)).
    erewrite bind_Return
      by (apply (get_active_devices_run "output" _ outs (or_intror eq_refl)); exact Ho).
    rewrite log_events_app. apply print_devices_body_run. }
  unfold run in Hrun. unfold result, after. rewrite Hrun. split; reflexivity.
Qed.

Lemma print_devices_lists_every_endpoint_witness :
  stdout (after print_devices demo_world) =
    ["Input devices (recording):";
     "  - Microphone (USB Audio)";
     "  - Headset (Bluetooth)";
     String newline "Output devices (playback):";
     "  - Speakers (Realtek)";
     "  - Headset (Bluetooth)"].
Proof.
  exact (proj2 (print_devices_lists_every_endpoint demo_world demo_inputs demo_outputs
                  eq_refl eq_refl)).
Defined.



(* ================================================================= *)
(** ** The command line, end to end *)



(** X22. Two Toggles do not restore an unreadable flag: starting from a
    flag that cannot be read, the first Toggle writes on and the second
    writes off, so the flag ends up reading as off. *)
Theorem toggle_twice_from_unknown (mic : string) (playback1 playback2 : option string)
    (verbose1 verbose2 : bool) (w : World) store :
  result (open_property_store_for_device mic) w = Return store ->
  result (get_listen_enabled store) w = Return None ->
  (forall enabled,
     SetValue_result (os w) store _listen_checkbox_property_key (enabled_variant enabled) =
     ComOk tt) ->
  let w1 := after (apply_listen_settings mic None playback1 verbose1) w in
  let w2 := after (apply_listen_settings mic None playback2 verbose2) w1 in
  result (get_listen_enabled store) w1 = Return (Some true) /\
  result (get_listen_enabled store) w2 = Return (Some false).
Proof.
  intros Hopen Hcur Hset w1 w2.
  destruct (apply_listen_settings_flag_after mic None playback1 verbose1 w store None
              Hopen Hcur (Hset _)) as [Hos1 Hread1].
  fold w1 in Hos1, Hread1. simpl in Hread1.
  split; [exact Hread1|].
  assert (Hopen1 : result (open_property_store_for_device mic) w1 = Return store)
    by (apply (open_property_store_for_device_same_os mic w w1 store Hos1 Hopen)).
  assert (Hset1 : SetValue_result (os w1) store _listen_checkbox_property_key
                    (enabled_variant (enabled_target None (Some true))) = ComOk tt)
    by (rewrite Hos1; apply Hset).
  destruct (apply_listen_settings_flag_after mic None playback2 verbose2 w1 store
              (Some true) Hopen1 Hread1 Hset1) as [_ Hread2].
  exact Hread2.
Qed.

Lemma toggle_twice_from_unknown_witness :
  let never_set := Demo.boot Demo.healthy Demo.untouched in
  let toggle := apply_listen_settings "Microphone (USB Audio)" None None false in
  result (get_listen_enabled demo_mic_store) never_set = Return None /\
  result (get_listen_enabled demo_mic_store) (after toggle (after toggle never_set)) =
    Return (Some false).
Proof.
  split; [reflexivity|].
  exact (proj2 (toggle_twice_from_unknown "Microphone (USB Audio)" None None false false
                  (Demo.boot Demo.healthy Demo.untouched) demo_mic_store
                  eq_refl eq_refl (fun _ => eq_refl))).
Defined.

(* ================================================================= *)
(** ** A property the store does not hold *)

(** C9, as stated, fails for an absent property that the store answers with
    the empty value: the read succeeds, the decoder takes the [boolVal] of
    the answer without looking at its type, and the result is [False], not
    [None]. *)
Lemma absent_property_reads_as_false :
  props unset_world demo_mic_store _listen_checkbox_property_key =
    ComOk {| vt := VT_EMPTY; boolVal := 0; pwszVal := None |} /\
  result (get_listen_enabled demo_mic_store) unset_world = Return (Some false) /\
  result (get_listen_enabled demo_mic_store) unset_world <> Return None.
Proof. repeat split. discriminate. Qed.

(* ================================================================= *)
(** ** Resolution never writes *)

(** X3. Resolving a name never writes and never prints: whatever the OS
    answers, the property values and the output are as they were, and no
    [SetValue] and no [Commit] call is made. *)
Theorem resolution_never_writes (name : string) (w : World) :
  let w' := after (find_device_guid_by_name name) w in
  props w' = props w /\
  stdout w' = stdout w /\
  exists calls,
    trace w' = trace w ++ calls /\
    forallb (fun ev => negb (is_write_call ev)) calls = true.
Proof.
  intros w'. subst w'.
  destruct (keeps_logged_find_device_guid_by_name name w) as (calls & -> & Hcalls).
  split; [reflexivity|]. split; [reflexivity|].
  exists calls. split; [reflexivity|].
  rewrite forallb_forall in *. intros ev Hin. specialize (Hcalls ev Hin).
  destruct ev; simpl in *; congruence.
Qed.

(* ================================================================= *)
(** ** [main] without a config command *)










